(** * pystiebeleltron: register catalogue, value codec and session

    A shallow embedding of [pystiebeleltron/pystiebeleltron.py]: the static
    [REGISTERS] table, the decoding done inside [update], the name lookup
    [_find_register] and the write path [set_register].

    Python values are a small tagged union; Python [int] is [Z], Python
    [float] is the kernel's binary64 [float], dictionaries whose iteration
    order the code relies on are association lists in insertion order.
    Exceptions are an explicit result type; the in-place mutation of the
    register dictionaries is explicit state passing. *)

From Stdlib Require Import ZArith String DecimalString List Bool Floats Lia.
Import ListNotations.
Open Scope string_scope.
Open Scope Z_scope.

Set Warnings "-inexact-float".

(** ** Python values and exceptions *)

(** The exceptions the module meets: the built-in ones, the bare
    [Exception] it raises itself, and the Modbus library's
    [ConnectionException], which a request may raise. *)
Inductive exn : Type :=
| AttributeError
| KeyError (key : string)
| IndexError
| TypeError
| ValueError
| OverflowError
| Exception (msg : string)
| ConnectionException (msg : string).

Inductive pyval : Type :=
| VInt (z : Z)
| VFloat (f : float)
| VStr (s : string)
| VList (l : list string).

(** A computation that either yields a value or raises. *)
Definition res (A : Type) : Type := (A + exn)%type.
Definition ok {A : Type} (a : A) : res A := inl a.
Definition raise {A : Type} (e : exn) : res A := inr e.
Definition bind {A B : Type} (m : res A) (k : A -> res B) : res B :=
  match m with
  | inl a => k a
  | inr e => inr e
  end.

Notation "x <- m ;; k" := (bind m (fun x => k))
  (at level 100, m at next level, right associativity).

(** ** Floating point: the part of CPython's [float] the codec uses *)

Module PyFloat.

(** Sign bit and exact value [n * 2^e] of a finite float. *)
Definition exact (x : float) : option (Z * Z) :=
  match Prim2SF x with
  | S754_zero _ => Some (0, 0)
  | S754_finite s m e => Some (if s then Z.neg m else Z.pos m, e)
  | S754_infinity _ => None
  | S754_nan => None
  end.

Definition sign_bit (x : float) : bool :=
  match Prim2SF x with
  | S754_zero s => s
  | S754_finite s _ _ => s
  | S754_infinity s => s
  | S754_nan => false
  end.

(** Nearest integer to [n / d] for [d > 0], exact halves to the even side. *)
Definition round_half_even (n d : Z) : Z :=
  let q := n / d in
  let r := n mod d in
  match 2 * r ?= d with
  | Lt => q
  | Gt => q + 1
  | Eq => if Z.even q then q else q + 1
  end.

(** The binary64 value nearest to [p / q] ([q > 0]), ties to even: the
    quotient is taken with at least 56 significant bits and a sticky bit,
    then rounded once. [neg] is the sign given to a zero result. *)
Definition of_ratio (neg : bool) (p q : Z) : float :=
  let a := Z.abs p in
  let s := Z.max 0 (57 + Z.log2 q - Z.log2 a) in
  let num := a * 2 ^ s in
  let m := num / q in
  let sticky := if num mod q =? 0 then 0 else 1 in
  let m' := 2 * m + sticky in
  SF2Prim (binary_normalize prec emax (if p <? 0 then - m' else m') (- s - 1) neg).

(** [PyLong_AsDouble]: the nearest float, [OverflowError] out of range. *)
Definition of_int (z : Z) : res float :=
  let f := SF2Prim (binary_normalize prec emax z 0 false) in
  if is_infinity f then raise OverflowError else ok f.

(** [round(x)] on a float: an [int], halves to even. *)
Definition round_int (x : float) : res Z :=
  match Prim2SF x with
  | S754_nan => raise ValueError
  | S754_infinity _ => raise OverflowError
  | S754_zero _ => ok 0
  | S754_finite s m e =>
      let n := if s then Z.neg m else Z.pos m in
      if 0 <=? e then ok (n * 2 ^ e) else ok (round_half_even n (2 ^ (- e)))
  end.

(** [round(x, ndigits)] on a float ([float___round___impl] with
    [double_round]): the decimal with [ndigits] digits nearest to the exact
    binary value of [x] (halves to even), converted back to the nearest
    float. *)
Definition round_ndigits (x : float) (ndigits : Z) : res float :=
  match exact x with
  | None => ok x
  | Some (n, e) =>
      if 323 <? ndigits then ok x
      else if ndigits <? -308 then ok (0 * x)%float
      else
        let num := n * 2 ^ (Z.max e 0) * 10 ^ (Z.max ndigits 0) in
        let den := 2 ^ (Z.max (- e) 0) * 10 ^ (Z.max (- ndigits) 0) in
        let k := round_half_even num den in
        let r := of_ratio (sign_bit x)
                   (k * 10 ^ (Z.max (- ndigits) 0)) (10 ^ (Z.max ndigits 0)) in
        if is_infinity r then raise OverflowError else ok r
  end.

(** [x == z] for a float and an int: comparison of the exact values. *)
Definition eq_int (x : float) (z : Z) : bool :=
  match exact x with
  | None => false
  | Some (n, e) =>
      if 0 <=? e then n * 2 ^ e =? z else n =? z * 2 ^ (- e)
  end.

End PyFloat.

(** ** Python operators on values, as the codec uses them *)

Fixpoint list_string_eqb (a b : list string) : bool :=
  match a, b with
  | [], [] => true
  | x :: a', y :: b' => String.eqb x y && list_string_eqb a' b'
  | _, _ => false
  end.

(** [a == b]. Floats compare with ints by exact value; a string never
    equals a number. *)
Definition py_eq (a b : pyval) : bool :=
  match a, b with
  | VInt x, VInt y => x =? y
  | VFloat f, VInt y => PyFloat.eq_int f y
  | VInt x, VFloat g => PyFloat.eq_int g x
  | VFloat f, VFloat g => PrimFloat.eqb f g
  | VStr s, VStr t => String.eqb s t
  | VList l, VList m => list_string_eqb l m
  | _, _ => false
  end.

(** [a * c] for a float constant [c]. *)
Definition py_mul_float (a : pyval) (c : float) : res pyval :=
  match a with
  | VInt z => f <- PyFloat.of_int z ;; ok (VFloat (f * c)%float)
  | VFloat f => ok (VFloat (f * c)%float)
  | VStr _ => raise TypeError
  | VList _ => raise TypeError
  end.

(** [round(a, ndigits)]. *)
Definition py_round_ndigits (a : pyval) (ndigits : Z) : res pyval :=
  match a with
  | VInt z =>
      if 0 <=? ndigits then ok (VInt z)
      else ok (VInt (PyFloat.round_half_even z (10 ^ (- ndigits)) * 10 ^ (- ndigits)))
  | VFloat f => r <- PyFloat.round_ndigits f ndigits ;; ok (VFloat r)
  | VStr _ => raise TypeError
  | VList _ => raise TypeError
  end.

(** [round(a * k)] for an int constant [k]; on a sequence the product is a
    repetition, which [round] then rejects. *)
Definition py_round_mul_int (a : pyval) (k : Z) : res pyval :=
  match a with
  | VInt z => ok (VInt (z * k))
  | VFloat f =>
      c <- PyFloat.of_int k ;;
      n <- PyFloat.round_int (f * c)%float ;;
      ok (VInt n)
  | VStr _ => raise TypeError
  | VList _ => raise TypeError
  end.

(** Truth value of [a & m] for an int [m]. *)
Definition py_and_true (a : pyval) (m : Z) : res bool :=
  match a with
  | VInt z => ok (negb (Z.land z m =? 0))
  | VFloat _ => raise TypeError
  | VStr _ => raise TypeError
  | VList _ => raise TypeError
  end.

(** ** The register catalogue *)

Inductive rtype : Type := INPUT | HOLDING.

Definition rtype_eqb (a b : rtype) : bool :=
  match a, b with
  | INPUT, INPUT => true
  | HOLDING, HOLDING => true
  | _, _ => false
  end.

(** Dictionaries in insertion order; keys are unique. *)
Definition code_map : Type := list (string * Z).
Definition error_table : Type := list (string * Z).

(** A register's dictionary: the four catalogue keys and the two keys
    [update] adds. [unit_label] is the key ['unit']. *)
Record item : Type := {
  addr : Z;
  type : Z;
  unit_label : option string;
  code : option code_map;
  value_raw : option Z;
  value : option pyval
}.

Definition register : Type := (string * item)%type.
Definition block : Type := list (rtype * list register).

(** A unit's table; either key may be missing. *)
Record family : Type := {
  ERRORS : option error_table;
  BLOCKS : option (list block)
}.

Definition registers : Type := list (string * family).

Definition reg (name : string) (a t : Z) (u : option string) (c : option code_map)
  : register :=
  (name, {| addr := a; type := t; unit_label := u; code := c;
            value_raw := None; value := None |}).

Definition LWZ_ERRORS : error_table :=
  [ ("N/A", 32768);
    ("SENSOR_LEAD_MISSING", (-60));
    ("SHORTCUT", (-50)) ].

Definition LWZ_block1 : block :=
  [ (INPUT,
     [ reg "ACTUAL_ROOM_TEMPERATURE_HC1" 1 2 (Some "°C") None;
       reg "SET_ROOM_TEMPERATURE_HC1" 2 2 (Some "°C") None;
       reg "ACTUAL_ROOM_TEMPERATURE_HC2" 4 2 (Some "°C") None;
       reg "SET_ROOM_TEMPERATURE_HC2" 5 2 (Some "°C") None;
       reg "RELATIVE_HUMIDITY_HC1" 3 2 (Some "%") None;
       reg "RELATIVE_HUMIDITY_HC2" 6 2 (Some "%") None;
       reg "OUTSIDE_TEMPERATURE" 7 2 (Some "°C") None;
       reg "ACTUAL_VALUE_HC1" 8 2 (Some "°C") None;
       reg "SET_VALUE_HC1" 9 2 (Some "°C") None;
       reg "ACTUAL_VALUE_HC2" 10 2 (Some "°C") None;
       reg "SET_VALUE_HC2" 11 2 (Some "°C") None;
       reg "FLOW_TEMPERATURE" 12 2 (Some "°C") None;
       reg "RETURN_TEMPERATURE" 13 2 (Some "°C") None;
       reg "PRESSURE_HEATING_CIRCUIT" 14 2 (Some "bar") None;
       reg "FLOW_RATE" 15 2 (Some "l/min") None;
       reg "ACTUAL_DHW_TEMPERATURE" 16 2 (Some "°C") None;
       reg "SET_DHW_TEMPERATURE" 17 2 (Some "°C") None;
       reg "VENTILATION_AIR_ACTUAL_FAN_SPEED" 18 6 (Some "Hz") None;
       reg "VENTILATION_AIR_SET_FLOW_RATE" 19 6 (Some "m³/h") None;
       reg "EXTRACT_AIR_ACTUAL_FAN_SPEED" 20 6 (Some "Hz") None;
       reg "EXTRACT_AIR_SET_FLOW_RATE" 21 6 (Some "m³/h") None;
       reg "EXTRACT_AIR_HUMIDITY" 22 6 (Some "%") None;
       reg "EXTRACT_AIR_TEMPERATURE" 23 2 (Some "°C") None;
       reg "EXTRACT_AIR_DEW_POINT" 24 2 (Some "°C") None;
       reg "DEW_POINT_TEMPERATURE_HC1" 25 2 (Some "°C") None;
       reg "DEW_POINT_TEMPERATURE_HC2" 26 2 (Some "°C") None;
       reg "COLLECTOR_TEMPERATURE" 27 2 (Some "°C") None;
       reg "HOT_GAS_TEMPERATURE" 28 2 (Some "°C") None;
       reg "HIGH_PRESSURE" 29 7 (Some "bar") None;
       reg "LOW_PRESSURE" 30 7 (Some "bar") None;
       reg "COMPRESSOR_STARTS" 31 6 None None;
       reg "COMPRESSOR_SPEED" 32 2 (Some "Hz") None;
       reg "MIXED_WATER_AMOUNT" 33 6 (Some "l") None ]) ].

Definition LWZ_block2 : block :=
  [ (HOLDING,
     [ reg "OPERATING_MODE" 1001 8 None (Some
        [ ("AUTOMATIC", 11);
          ("STANDBY", 1);
          ("DAY MODE", 3);
          ("SETBACK MODE", 4);
          ("DHW", 5);
          ("MANUAL MODE", 14);
          ("EMERGENCY OPERATION", 0) ]);
       reg "ROOM_TEMP_HEAT_DAY_HC1" 1002 2 (Some "°C") None;
       reg "ROOM_TEMP_HEAT_NIGHT_HC1" 1003 2 (Some "°C") None;
       reg "MANUAL_SET_TEMP_HC1" 1004 2 (Some "°C") None;
       reg "ROOM_TEMP_HEAT_DAY_HC2" 1005 2 (Some "°C") None;
       reg "ROOM_TEMP_HEAT_NIGHT_HC2" 1006 2 (Some "°C") None;
       reg "MANUAL_SET_TEAMP_HC2" 1007 2 (Some "°C") None;
       reg "GRADIENT_HC1" 1008 7 (Some "°C") None;
       reg "LOW_END_HC1" 1009 2 (Some "°C") None;
       reg "GRADIENT_HC2" 1010 7 (Some "°C") None;
       reg "LOW_END_HC2" 1011 2 (Some "°C") None;
       reg "DHW_TEMP_SET_DAY" 1012 2 (Some "°C") None;
       reg "DHW_TEMP_SET_NIGHT" 1013 2 (Some "°C") None;
       reg "DHW_TEMP_SET_MANUAL" 1014 2 (Some "°C") None;
       reg "MWM_SET_DAY" 1015 6 (Some "l") None;
       reg "MWM_SET_NIGHT" 1016 6 (Some "l") None;
       reg "MWM_SET_MANUAL" 1017 6 (Some "l") None;
       reg "DAY_STAGE" 1018 6 None None;
       reg "NIGHT_STAGE" 1019 6 None None;
       reg "PARTY_STAGE" 1020 6 None None;
       reg "MANUAL_STAGE" 1021 6 None None;
       reg "ROOM_TEMP_COOL_DAY_HC1" 1022 2 (Some "°C") None;
       reg "ROOM_TEMP_COOL_NIGHT_HC1" 1023 2 (Some "°C") None;
       reg "ROOM_TEMP_COOL_DAY_HC2" 1024 2 (Some "°C") None;
       reg "ROOM_TEMP_COOL_NIGHT_HC2" 1025 2 (Some "°C") None;
       reg "RESET" 1026 6 None (Some
        [ ("OFF", 0);
          ("ON", 1) ]);
       reg "RESTART_ISG" 1027 6 None (Some
        [ ("OFF", 0);
          ("RESET", 1);
          ("MENU", 2) ]) ]) ].

Definition LWZ_block3 : block :=
  [ (INPUT,
     [ reg "OPERATING_STATUS" 2001 6 None (Some
        [ ("SWITCHING_PROGRAM_ENABLED", (Z.shiftl 1 0));
          ("COMPRESSOR", (Z.shiftl 1 1));
          ("HEATING", (Z.shiftl 1 2));
          ("COOLING", (Z.shiftl 1 3));
          ("DHW", (Z.shiftl 1 4));
          ("ELECTRIC_REHEATING", (Z.shiftl 1 5));
          ("SERVICE", (Z.shiftl 1 6));
          ("POWER-OFF", (Z.shiftl 1 7));
          ("FILTER", (Z.shiftl 1 8));
          ("VENTILATION", (Z.shiftl 1 9));
          ("HEATING_CIRCUIT_PUMP", (Z.shiftl 1 10));
          ("EVAPORATOR_DEFROST", (Z.shiftl 1 11));
          ("FILTER_EXTRACT_AIR", (Z.shiftl 1 12));
          ("FILTER_VENTILATION_AIR", (Z.shiftl 1 13));
          ("HEAT-UP_PROGRAM", (Z.shiftl 1 14)) ]);
       reg "FAULT_STATUS" 2002 6 None (Some
        [ ("NO_FAULT", 0);
          ("FAULT", 1) ]);
       reg "BUS_STATUS" 2003 6 None (Some
        [ ("STATUS OK", 0);
          ("STATUS ERROR", (-1));
          ("ERROR-PASSIVE", (-2));
          ("BUS-OFF", (-3));
          ("PHYSICAL-ERROR", (-4)) ]);
       reg "DEFROST_INITIATED" 2004 6 None (Some
        [ ("OFF", 0);
          ("INITIATED", 1) ]);
       reg "OPERATING_STATUS-2" 2005 6 None (Some
        [ ("SUMMER_MODE_ACTIVE", (Z.shiftl 1 0));
          ("OVEN/FIREPLACE_MODE_ACTIVE", (Z.shiftl 1 1)) ]) ]) ].

Definition LWZ_block4 : block :=
  [ (INPUT,
     [ reg "HEAT_METER_HEATING_DAY" 3001 6 (Some "kWh") None;
       reg "HEAT_METER_HEATING_TOTAL_kWh" 3002 6 (Some "kWh") None;
       reg "HEAT_METER_HEATING_TOTAL_MWh" 3003 6 (Some "MWh") None;
       reg "HEAT_METER_DHW_DAY" 3004 6 (Some "kWh") None;
       reg "HEAT_METER_DHW_TOTAL_kWh" 3005 6 (Some "kWh") None;
       reg "HEAT_METER_DHW_TOTAL_MWh" 3006 6 (Some "MWh") None;
       reg "HEAT_METER_BOOST_HEATING_TOTAL_kWh" 3007 6 (Some "kWh") None;
       reg "HEAT_METER_BOOST_HEATING_TOTAL_MWh" 3008 6 (Some "MWh") None;
       reg "HEAT_METER_BOOST_DHW_TOTAL_kWh" 3009 6 (Some "kWh") None;
       reg "HEAT_METER_BOOST_DHW_TOTAL_MWh" 3010 6 (Some "MWh") None;
       reg "HEAT_METER_RECOVERY_DAY" 3011 6 (Some "kWh") None;
       reg "HEAT_METER_RECOVERY_TOTAL_kWh" 3012 6 (Some "kWh") None;
       reg "HEAT_METER_RECOVERY_TOTAL_MWh" 3013 6 (Some "MWh") None;
       reg "HEAT_METER_SOLAR_HEATING_DAY" 3014 6 (Some "kWh") None;
       reg "HEAT_METER_SOLAR_HEATING_TOTAL_kWh" 3015 6 (Some "kWh") None;
       reg "HEAT_METER_SOLAR_HEATING_TOTAL_MWh" 3016 6 (Some "MWh") None;
       reg "HEAT_METER_SOLAR_DHW_DAY" 3017 6 (Some "kWh") None;
       reg "HEAT_METER_SOLAR_DHW_TOTAL_kWh" 3018 6 (Some "kWh") None;
       reg "HEAT_METER_SOLAR_DHW_TOTAL_MWh" 3019 6 (Some "MWh") None;
       reg "HEAT_METER_COOLING_TOTAL_kWh" 3020 6 (Some "kWh") None;
       reg "HEAT_METER_COOLING_TOTAL_MWh" 3021 6 (Some "MWh") None;
       reg "POWER_METER_HEATING_DAY" 3022 6 (Some "kWh") None;
       reg "POWER_METER_HEATING_TOTAL_kWh" 3023 6 (Some "kWh") None;
       reg "POWER_METER_HEATING_TOTAL_MWh" 3024 6 (Some "MWh") None;
       reg "POWER_METER_DHW_DAY" 3025 6 (Some "kWh") None;
       reg "POWER_METER_DHW_TOTAL_kWh" 3026 6 (Some "kWh") None;
       reg "POWER_METER_DHW_TOTAL_MWh" 3027 6 (Some "MWh") None;
       reg "TIMER_COMPRESSOR_HEATING" 3028 6 (Some "h") None;
       reg "TIMER_COMPRESSOR_COOLING" 3029 6 (Some "h") None;
       reg "TIMER_COMPRESSOR_DHW" 3030 6 (Some "h") None;
       reg "TIMER_BOOSTER_HEATING" 3031 6 (Some "h") None;
       reg "TIMER_BOOSTER_DHW" 3032 6 (Some "h") None ]) ].

Definition LWZ_block5 : block :=
  [ (HOLDING,
     [ reg "EM_SGREADY_SWITCH" 4001 6 None (Some
        [ ("OFF", 0);
          ("ON", 1) ]);
       reg "EM_SGREADY_INPUT_1" 4002 6 None (Some
        [ ("OFF", 0);
          ("ON", 1) ]);
       reg "EM_SGREADY_INPUT_2" 4003 6 None (Some
        [ ("OFF", 0);
          ("ON", 1) ]) ]) ].

Definition LWZ_block6 : block :=
  [ (INPUT,
     [ reg "EM_SGREADY_OPERATING_MODE" 5001 6 None (Some
        [ ("REDUCED", 1);
          ("STANDARD", 2);
          ("INCREASED", 3);
          ("MAXIMIZED", 4) ]);
       reg "CONTROLLER_ID" 5002 6 None (Some
        [ ("LWZ 303/403 Integral/SOL; LWA 403; LWZ 304/404 Trend; LWZ 304/404 Flex; LWZ Smart; LWZ 604 Air; LWZ 5 S Plus/Trend/Smart", 103);
          ("LWZ 304/404 SOL; LWZ 504; LWZ 5/8 CS Premium", 104);
          ("WPM 3", 390);
          ("WPM 3i", 391);
          ("WPMsystem", 449) ]) ]) ].

Definition LWZ_BLOCKS : list block :=
  [ LWZ_block1; LWZ_block2; LWZ_block3; LWZ_block4; LWZ_block5; LWZ_block6 ].


Definition REGISTERS : registers :=
  [ ("LWZ", {| ERRORS := Some LWZ_ERRORS; BLOCKS := Some LWZ_BLOCKS |});
    ("WPM", {| ERRORS := None; BLOCKS := None |}) ].

(** ** Dictionary and list helpers *)

Fixpoint dict_get {V : Type} (k : string) (d : list (string * V)) : option V :=
  match d with
  | [] => None
  | (k', v) :: d' => if String.eqb k' k then Some v else dict_get k d'
  end.

Fixpoint dict_set {V : Type} (k : string) (v : V) (d : list (string * V))
  : list (string * V) :=
  match d with
  | [] => [(k, v)]
  | (k', v') :: d' =>
      if String.eqb k' k then (k, v) :: d' else (k', v') :: dict_set k v d'
  end.

Fixpoint block_get (rt : rtype) (b : block) : option (list register) :=
  match b with
  | [] => None
  | (rt', rs) :: b' => if rtype_eqb rt' rt then Some rs else block_get rt b'
  end.

Fixpoint block_set (rt : rtype) (rs : list register) (b : block) : block :=
  match b with
  | [] => [(rt, rs)]
  | (rt', rs') :: b' =>
      if rtype_eqb rt' rt then (rt, rs) :: b' else (rt', rs') :: block_set rt rs b'
  end.

Definition set_value_raw (it : item) (raw : Z) : item :=
  {| addr := addr it; type := type it; unit_label := unit_label it;
     code := code it; value_raw := Some raw; value := value it |}.

Definition set_value (it : item) (v : pyval) : item :=
  {| addr := addr it; type := type it; unit_label := unit_label it;
     code := code it; value_raw := value_raw it; value := Some v |}.

(** ** The Modbus client and what a call leaves behind *)

(** What a call of [read_*_registers] does: it hands back a response
    carrying [.registers], or an object without that attribute (the unit
    did not reply), or it raises the library's [ConnectionException]
    itself (the connection is gone). *)
Inductive response : Type :=
| Registers (ws : list Z)
| ErrorResponse
| CallRaises (msg : string).

(** What [write_register] hands back and [set_register] prints: an
    acknowledgement, or an object reporting that the write failed. *)
Inductive write_response : Type :=
| WriteAck
| WriteError.

Inductive request : Type :=
| ReadInput (address count : Z)
| ReadHolding (address count : Z)
| WriteRegister (address : Z) (v : pyval).

(** The client answers a request given the number of requests made
    before it on this connection. *)
Record client : Type := {
  read_input_registers : nat -> Z -> Z -> response;
  read_holding_registers : nat -> Z -> Z -> response;
  write_register : nat -> Z -> pyval -> write_response
}.

Inductive logrec : Type :=
| Info_processing_block (block_cnt : Z)
| Warning_inconsistent (count len : Z)
| Exception_modbus_read_failed.

Record io : Type := {
  calls : list request;
  log : list logrec;
  stdout : list write_response
}.

Definition io0 : io := {| calls := []; log := []; stdout := [] |}.

Definition add_call (w : io) (r : request) : io :=
  {| calls := calls w ++ [r]; log := log w; stdout := stdout w |}.

Definition add_log (w : io) (l : logrec) : io :=
  {| calls := calls w; log := log w ++ [l]; stdout := stdout w |}.

Definition add_stdout (w : io) (r : write_response) : io :=
  {| calls := calls w; log := log w; stdout := stdout w ++ [r] |}.

Record session : Type := {
  _unit : string;
  _slave : Z;
  _update_on_read : bool
}.

(** ** [StiebelEltronAPI.__init__] *)

Definition __init__ (R : registers) (unit : string) (update_on_read : bool)
  : res session :=
  if existsb (fun kv => String.eqb (fst kv) unit) R then
    ok {| _unit := unit; _slave := 1; _update_on_read := update_on_read |}
  else
    raise (Exception ("No registers found for unit '" ++ unit
                      ++ "'! Supported: " ++ String.concat ", " (map fst R))).

(** ** [update]: decoding one word (lines 351-369) *)

(** The scan of the error table: once a sentinel matched, [result] is a
    string and equals no later code. *)
Definition scan_errors (errors : error_table) (raw : Z) : bool * pyval :=
  fold_left
    (fun (acc : bool * pyval) (e : string * Z) =>
       if py_eq (snd acc) (VInt (snd e)) then (true, VStr (fst e)) else acc)
    errors (false, VInt raw).

(** The loop over the code map, with its [break] on an exact match. *)
Fixpoint scan_code (result : pyval) (cm : code_map) (coded : list string)
  : res (list string) :=
  match cm with
  | [] => ok coded
  | (c, v) :: cm' =>
      if py_eq result (VInt v) then ok [c]
      else
        b <- py_and_true result v ;;
        scan_code result cm' (if b then coded ++ [c] else coded)
  end.

Definition decode (errors : error_table) (it : item) (raw : Z) : res pyval :=
  let (is_error, result) := scan_errors errors raw in
  if is_error then ok result
  else
    result <- (if type it =? 2
               then (p <- py_mul_float result 0.1 ;; py_round_ndigits p 1)
               else ok result) ;;
    result <- (if type it =? 7
               then (p <- py_mul_float result 0.01 ;; py_round_ndigits p 1)
               else ok result) ;;
    match code it with
    | Some cm => coded <- scan_code result cm [] ;; ok (VList coded)
    | None => ok result
    end.

(** One iteration of [for idx, result in enumerate(results)]: the raw word
    is stored first, the decoded value only if decoding raised nothing. *)
Definition update_item (errors : option error_table) (it : item) (raw : Z)
  : item * option exn :=
  let it1 := set_value_raw it raw in
  match errors with
  | None => (it1, Some (KeyError "ERRORS"))
  | Some tbl =>
      match decode tbl it1 raw with
      | inl v => (set_value it1 v, None)
      | inr e => (it1, Some e)
      end
  end.

Fixpoint assign_results (errors : option error_table) (rs : list register)
  (results : list Z) : list register * option exn :=
  match results with
  | [] => (rs, None)
  | w :: ws =>
      match rs with
      | [] => ([], Some IndexError)
      | (name, it) :: rs' =>
          match update_item errors it w with
          | (it', Some e) => ((name, it') :: rs', Some e)
          | (it', None) =>
              let (rs'', e) := assign_results errors rs' ws in
              ((name, it') :: rs'', e)
          end
      end
  end.

(** ** [update]: one register-type list of one block (lines 330-372) *)

Definition read_registers (c : client) (rt : rtype) (n : nat) (address count : Z)
  : response :=
  match rt with
  | INPUT => read_input_registers c n address count
  | HOLDING => read_holding_registers c n address count
  end.

Definition read_request (rt : rtype) (address count : Z) : request :=
  match rt with
  | INPUT => ReadInput address count
  | HOLDING => ReadHolding address count
  end.

Definition update_rtype (c : client) (errors : option error_table) (rt : rtype)
  (b : block) (w : io) : block * io * option exn :=
  match block_get rt b with
  | None => (b, w, None)
  | Some rs =>
      match rs with
      | [] => (b, w, Some IndexError)
      | (_, first) :: _ =>
          let address := addr first - 1 in
          let count := Z.of_nat (length rs) in
          let w1 := add_call w (read_request rt address count) in
          match read_registers c rt (length (calls w)) address count with
          | ErrorResponse => (b, w1, Some AttributeError)
          | CallRaises msg => (b, w1, Some (ConnectionException msg))
          | Registers results =>
              if negb (Nat.eqb (length results) 0)
                 && (Z.of_nat (length results) =? count)
              then
                let (rs', e) := assign_results errors rs results in
                (block_set rt rs' b, w1, e)
              else
                (b, add_log w1 (Warning_inconsistent count (Z.of_nat (length results))),
                 None)
          end
      end
  end.

Definition update_block (c : client) (errors : option error_table)
  (block_cnt : Z) (b : block) (w : io) : block * io * option exn :=
  let w0 := add_log w (Info_processing_block block_cnt) in
  match update_rtype c errors INPUT b w0 with
  | (b1, w1, Some e) => (b1, w1, Some e)
  | (b1, w1, None) => update_rtype c errors HOLDING b1 w1
  end.

Fixpoint update_blocks (c : client) (errors : option error_table)
  (block_cnt : Z) (bs : list block) (w : io)
  : list block * io * option exn :=
  match bs with
  | [] => ([], w, None)
  | b :: bs' =>
      match update_block c errors block_cnt b w with
      | (b1, w1, Some e) => (b1 :: bs', w1, Some e)
      | (b1, w1, None) =>
          match update_blocks c errors (block_cnt + 1) bs' w1 with
          | (bs1, w2, e) => (b1 :: bs1, w2, e)
          end
      end
  end.

(** ** [update] *)

Definition set_blocks (R : registers) (unit : string) (bs : list block)
  : registers :=
  match dict_get unit R with
  | Some fam => dict_set unit {| ERRORS := ERRORS fam; BLOCKS := Some bs |} R
  | None => R
  end.

Definition update (c : client) (s : session) (R : registers) (w : io)
  : res bool * registers * io :=
  match dict_get (_unit s) R with
  | None => (raise (KeyError (_unit s)), R, w)
  | Some fam =>
      match BLOCKS fam with
      | None => (raise (KeyError "BLOCKS"), R, w)
      | Some bs =>
          match update_blocks c (ERRORS fam) 1 bs w with
          | (bs', w', None) => (ok true, set_blocks R (_unit s) bs', w')
          | (bs', w', Some AttributeError) =>
              (ok false, set_blocks R (_unit s) bs',
               add_log w' Exception_modbus_read_failed)
          | (bs', w', Some e) => (raise e, set_blocks R (_unit s) bs', w')
          end
      end
  end.

(** ** [get_registers], [_find_register], [get_register] *)

Definition get_registers (s : session) (R : registers) : res (list block) :=
  match dict_get (_unit s) R with
  | None => raise (KeyError (_unit s))
  | Some fam =>
      match BLOCKS fam with
      | None => raise (KeyError "BLOCKS")
      | Some bs => ok bs
      end
  end.

(** The innermost loop: the first match in this list replaces the variable [register] (here [found])
    and ends this loop only. *)
Fixpoint scan_register_set (name : string) (my_register_set : list register)
  (found : option register) : option register :=
  match my_register_set with
  | [] => found
  | my_register :: rest =>
      if String.eqb (fst my_register) name then Some my_register
      else scan_register_set name rest found
  end.

(** [[ my_block[t] for t in block_types ]]; every [t] is a key of the block. *)
Definition register_sets (my_block : block) (block_types : list rtype)
  : list (list register) :=
  flat_map (fun t => match block_get t my_block with
                     | Some rs => [rs]
                     | None => []
                     end) block_types.

Definition scan_block (name : string) (block_type : option rtype)
  (found : option register) (my_block : block) : option register :=
  let block_types := map fst my_block in
  match block_type with
  | Some bt =>
      if existsb (rtype_eqb bt) block_types
      then fold_left (fun r set => scan_register_set name set r)
             (register_sets my_block [bt]) found
      else found
  | None =>
      fold_left (fun r set => scan_register_set name set r)
        (register_sets my_block block_types) found
  end.

Definition _find_register (s : session) (R : registers) (name : string)
  (block_type : option rtype) : res (option register) :=
  bs <- get_registers s R ;;
  ok (fold_left (scan_block name block_type) bs None).


(** ** [set_register] *)

Definition not_found_msg : string := "Register not found or not HOLDING register!".
Definition not_supported_msg : string := "Value not supported!".

(** "Apply type factor" (lines 430-433). *)
Definition encode (it : item) (value : pyval) : res pyval :=
  value <- (if type it =? 2 then py_round_mul_int value 10 else ok value) ;;
  (if type it =? 7 then py_round_mul_int value 100 else ok value).

Definition value_in_code (value : pyval) (cm : code_map) : bool :=
  existsb (fun kv => py_eq value (VInt (snd kv))) cm.

Definition set_register (c : client) (s : session) (R : registers)
  (name : string) (value : pyval) (w : io) : res unit * io :=
  match _find_register s R name (Some HOLDING) with
  | inr e => (raise e, w)
  | inl None => (raise (Exception not_found_msg), w)
  | inl (Some (_, it)) =>
      match encode it value with
      | inr e => (raise e, w)
      | inl raw =>
          let unsupported :=
            match code it with
            | Some cm => negb (value_in_code raw cm)
            | None => false
            end in
          if unsupported then (raise (Exception not_supported_msg), w)
          else
            let r := write_register c (length (calls w)) (addr it - 1) raw in
            (ok tt, add_stdout (add_call w (WriteRegister (addr it - 1) raw)) r)
      end
  end.

(** ** [get_register_value_formatted] and the example driver *)

Section Formatting.

(** Python's [str] on numbers and lists, taken as given; on a string it is
    the string itself. *)
Variable str_of : pyval -> string.

Definition py_str (v : pyval) : string :=
  match v with
  | VStr s => s
  | _ => str_of v
  end.


(** [example.py]: the line printed for one register; a register without
    the key ['value'] raises [KeyError]. *)
Definition example_line (r : register) : res string :=
  match value (snd r) with
  | None => raise (KeyError "value")
  | Some v =>
      let v1 :=
        match unit_label (snd r) with
        | Some u => if String.eqb u "" then v else VStr (py_str v ++ " " ++ u)
        | None => v
        end in
      let v2 :=
        match value_raw (snd r) with
        | Some raw => VStr (py_str v1 ++ " (RAW " ++ py_str (VInt raw) ++ ")")
        | None => v1
        end in
      ok (fst r ++ ": " ++ py_str v2)
  end.

(** The three nested loops of [main]: lines printed so far, and the
    exception that ended the loops, if any. *)
Fixpoint example_lines (rs : list register) (out : list string)
  : list string * option exn :=
  match rs with
  | [] => (out, None)
  | r :: rs' =>
      match example_line r with
      | inl l => example_lines rs' (out ++ [l])
      | inr e => (out, Some e)
      end
  end.

(** The registers in the order [main] walks them: blocks, then the keys
    of each block, then the list under each key. *)
Definition walk (bs : list block) : list register :=
  flat_map (fun b => concat (register_sets b (map fst b))) bs.

Definition UNIT : string := "LWZ".

(** [main]: construct, [update] (its result is ignored), then print every
    register. Yields the outcome, the printed lines, the catalogue and the
    connection's record. *)
Definition main (c : client) (R : registers)
  : res unit * list string * registers * io :=
  match __init__ R UNIT false with
  | inr e => (raise e, [], R, io0)
  | inl isg =>
      match update c isg R io0 with
      | (inr e, R', w') => (raise e, [], R', w')
      | (inl _, R', w') =>
          match get_registers isg R' with
          | inr e => (raise e, [], R', w')
          | inl result =>
              match example_lines (walk result) [] with
              | (out, Some e) => (raise e, out, R', w')
              | (out, None) => (ok tt, out, R', w')
              end
          end
      end
  end.

End Formatting.

(** ** Clients used to exercise the session *)

(** A unit that holds the word [mem a] at device address [a] (1-based; the
    request's [address] is 0-based) and answers every request. *)
Definition words_at (mem : Z -> Z) (address count : Z) : list Z :=
  map (fun i => mem (address + 1 + Z.of_nat i)) (seq 0 (Z.to_nat count)).

Definition device_client (mem : Z -> Z) : client :=
  {| read_input_registers := fun _ address count => Registers (words_at mem address count);
     read_holding_registers := fun _ address count => Registers (words_at mem address count);
     write_register := fun _ _ _ => WriteAck |}.

(** As [device_client], but the request number [k] (from 0) gets no reply. *)
Definition failing_client (mem : Z -> Z) (k : nat) : client :=
  {| read_input_registers := fun n address count =>
       if Nat.eqb n k then ErrorResponse else Registers (words_at mem address count);
     read_holding_registers := fun n address count =>
       if Nat.eqb n k then ErrorResponse else Registers (words_at mem address count);
     write_register := fun _ _ _ => WriteError |}.

(** As [device_client], but at the request number [k] (from 0) the read
    call raises [ConnectionException]. *)
Definition lost_client (mem : Z -> Z) (k : nat) : client :=
  {| read_input_registers := fun n address count =>
       if Nat.eqb n k then CallRaises "Failed to connect"
       else Registers (words_at mem address count);
     read_holding_registers := fun n address count =>
       if Nat.eqb n k then CallRaises "Failed to connect"
       else Registers (words_at mem address count);
     write_register := fun _ _ _ => WriteAck |}.

(** As [device_client], but the request number [k] is answered one word short. *)
Definition short_client (mem : Z -> Z) (k : nat) : client :=
  {| read_input_registers := fun n address count =>
       Registers (words_at mem address (if Nat.eqb n k then count - 1 else count));
     read_holding_registers := fun n address count =>
       Registers (words_at mem address (if Nat.eqb n k then count - 1 else count));
     write_register := fun _ _ _ => WriteAck |}.

Definition LWZ_session : session :=
  {| _unit := "LWZ"; _slave := 1; _update_on_read := false |}.

Definition WPM_session : session :=
  {| _unit := "WPM"; _slave := 1; _update_on_read := false |}.


(** ** Definitions used to state the properties *)

(** Addresses [a, a+1, a+2, ...] down a register list. *)
Fixpoint contiguous_from (a : Z) (rs : list register) : bool :=
  match rs with
  | [] => true
  | (_, it) :: rs' => (addr it =? a) && contiguous_from (a + 1) rs'
  end.

(** A list is contiguous when the register at index [i] has the first
    register's address plus [i]. *)
Definition contiguous (rs : list register) : bool :=
  match rs with
  | [] => true
  | (_, first) :: _ => contiguous_from (addr first) rs
  end.

(** The name of the first sentinel of the table equal to [raw]. *)
Definition sentinel_name (errors : error_table) (raw : Z) : option string :=
  option_map fst (find (fun e => snd e =? raw) errors).

(** The labels a code map gives an integer [v]: the first entry equal to
    [v] alone, else every entry sharing a bit with [v], in map order. *)
Definition code_labels (cm : code_map) (v : Z) : list string :=
  match find (fun kv => snd kv =? v) cm with
  | Some (c, _) => [c]
  | None => map fst (filter (fun kv => negb (Z.land v (snd kv) =? 0)) cm)
  end.

(** Every register of every list of a block sequence. *)
Definition all_registers (bs : list block) : list register :=
  flat_map (fun b => flat_map snd b) bs.

(** The registers of the lists of type [rt]. *)
Definition registers_of_type (rt : rtype) (bs : list block) : list register :=
  flat_map (fun b => match block_get rt b with
                     | Some rs => rs
                     | None => []
                     end) bs.

(** Nearest integer to [n / d] for [d > 0], exact halves away from zero. *)
Definition round_half_away (n d : Z) : Z :=
  if 0 <=? n then (2 * n + d) / (2 * d) else - ((2 * (- n) + d) / (2 * d)).

(** A catalogue in which two HOLDING lists declare the same name. *)
Definition DUP_REGISTERS : registers :=
  [ ("DUP",
     {| ERRORS := Some [];
        BLOCKS := Some [ [ (HOLDING, [ reg "SETPOINT" 1 6 None None ]) ];
                         [ (HOLDING, [ reg "SETPOINT" 2 6 None None ]) ] ] |}) ].

Definition DUP_session : session :=
  {| _unit := "DUP"; _slave := 1; _update_on_read := false |}.

(** [k] is an integer nearest to [n / d], and the even one of the two when
    [n / d] lies exactly half way. *)
Definition nearest_half_even (n d k : Z) : Prop :=
  2 * Z.abs (k * d - n) <= d /\
  (2 * Z.abs (k * d - n) = d -> Z.even k = true).

(** The registers after one [update] of a fresh LWZ session against a
    unit holding [mem], and a register's item looked up there by name. *)
Definition LWZ_after_update (mem : Z -> Z) : registers :=
  snd (fst (update (device_client mem) LWZ_session REGISTERS io0)).

Definition item_of (R : registers) (name : string) : option item :=
  match _find_register LWZ_session R name None with
  | inl (Some (_, it)) => Some it
  | _ => None
  end.

(** The HOLDING list of LWZ block 2, split at its first register. *)
Definition LWZ_block2_first : item :=
  match block_get HOLDING LWZ_block2 with
  | Some ((_, it) :: _) => it
  | _ => snd (reg "" 0 0 None None)
  end.

Definition LWZ_block2_rest : list register :=
  match block_get HOLDING LWZ_block2 with
  | Some (_ :: rest) => rest
  | _ => []
  end.

(** A register's catalogue entry without what [update] stores in it. *)
Definition spec_of (it : item) : item :=
  {| addr := addr it; type := type it; unit_label := unit_label it;
     code := code it; value_raw := None; value := None |}.

Definition specs_of_list (rs : list register) : list register :=
  map (fun r => (fst r, spec_of (snd r))) rs.

Definition specs_of_block (b : block) : block :=
  map (fun l => (fst l, specs_of_list (snd l))) b.

Definition specs_of (R : registers) : registers :=
  map (fun kv => (fst kv,
                  {| ERRORS := ERRORS (snd kv);
                     BLOCKS := option_map (map specs_of_block) (BLOCKS (snd kv)) |}))
    R.

(** The one ranged read a list of a block calls for. *)
Definition list_request (rt : rtype) (b : block) : list request :=
  match block_get rt b with
  | Some ((_, first) :: rest) =>
      [ read_request rt (addr first - 1) (Z.of_nat (S (length rest))) ]
  | _ => []
  end.

(** The reads a full pass over the blocks makes, in order. *)
Definition expected_requests (bs : list block) : list request :=
  flat_map (fun b => (list_request INPUT b ++ list_request HOLDING b)%list) bs.

(** What the client answers to the request number [i]. *)
Definition answer (c : client) (i : nat) (r : request) : option response :=
  match r with
  | ReadInput a k => Some (read_input_registers c i a k)
  | ReadHolding a k => Some (read_holding_registers c i a k)
  | WriteRegister _ _ => None
  end.

(** Every request of [reqs], made as the requests number [start],
    [start + 1], ..., is answered with a register list. *)
Fixpoint answered (c : client) (start : nat) (reqs : list request) : Prop :=
  match reqs with
  | [] => True
  | r :: reqs' =>
      (exists ws, answer c start r = Some (Registers ws)) /\
      answered c (S start) reqs'
  end.

(** How the requests [new] made by a pass relate to the requests
    [expected] of a full pass and to the way the pass ended: a pass makes
    the expected requests in order, all of them when nothing was raised;
    without an exception each was answered with registers; an
    [AttributeError] means the last one was answered without. *)
Definition trace_ok (c : client) (start : nat) (expected new : list request)
  (e : option exn) : Prop :=
  (exists rest, expected = (new ++ rest)%list /\ (e = None -> rest = [])) /\
  match e with
  | None => answered c start new
  | Some AttributeError =>
      exists init last,
        new = (init ++ [last])%list /\ answered c start init /\
        answer c (start + length init) last = Some ErrorResponse
  | Some _ => True
  end.

(** [P] holds on [lo], [lo + 1], ..., [lo + n - 1]. *)
Fixpoint all_from (P : Z -> bool) (lo : Z) (n : nat) : bool :=
  match n with
  | O => true
  | S n' => if P lo then all_from P (lo + 1) n' else false
  end.

(** A type-2 register without code map reads [r] as a float that writes
    back as [r]. *)
Definition type2_round_trip (r : Z) : bool :=
  match decode [] (snd (reg "" 0 2 None None)) r with
  | inl (VFloat f) =>
      match encode (snd (reg "" 0 2 None None)) (VFloat f) with
      | inl (VInt r') => r' =? r
      | _ => false
      end
  | _ => false
  end.

(** A table holding LWZ block 5 alone, to run whole calls on. *)
Definition SMALL_REGISTERS : registers :=
  [ ("LWZ", {| ERRORS := Some LWZ_ERRORS; BLOCKS := Some [ LWZ_block5 ] |}) ].

(** A lookup's result with the stored values left out. *)
Definition spec_found (r : res (option register)) : res (option register) :=
  match r with
  | inl found => inl (option_map (fun x => (fst x, spec_of (snd x))) found)
  | inr e => inr e
  end.

(** A stand-in for Python's [str] to run the driver on examples: decimal
    digits for an int, a placeholder for a float or a list. *)
Definition str_stub (v : pyval) : string :=
  match v with
  | VInt z => NilZero.string_of_int (Z.to_int z)
  | VFloat _ => "<float>"
  | VStr s => s
  | VList _ => "<list>"
  end.

(** * Properties *)

(** ** Error sentinels *)

Lemma scan_errors_matched (errors : error_table) (b : bool) (s : string) :
  fold_left
    (fun (acc : bool * pyval) (e : string * Z) =>
       if py_eq (snd acc) (VInt (snd e)) then (true, VStr (fst e)) else acc)
    errors (b, VStr s) = (b, VStr s).
Proof.
  induction errors as [|e errors IH]; simpl; [reflexivity | exact IH].
Qed.

Lemma scan_errors_spec (errors : error_table) (raw : Z) :
  scan_errors errors raw =
  match sentinel_name errors raw with
  | Some name => (true, VStr name)
  | None => (false, VInt raw)
  end.
Proof.
  unfold scan_errors, sentinel_name.
  induction errors as [|[name c] errors IH]; simpl; [reflexivity|].
  rewrite (Z.eqb_sym c raw).
  destruct (raw =? c); simpl.
  - apply scan_errors_matched.
  - exact IH.
Qed.

(** C3: a raw word equal to a sentinel of the unit's error table decodes to
    that sentinel's name as a string, whatever the register's data type and
    whether or not it carries a code map; [update] stores the raw word and
    that string. *)
Theorem sentinel_short_circuits_decoding :
  forall (errors : error_table) (it : item) (raw : Z) (name : string),
    sentinel_name errors raw = Some name ->
    decode errors it raw = ok (VStr name) /\
    update_item (Some errors) it raw
      = (set_value (set_value_raw it raw) (VStr name), None).
Proof.
  intros errors it raw name H.
  assert (D : forall it', decode errors it' raw = ok (VStr name)).
  { intro it'. unfold decode. rewrite scan_errors_spec, H. reflexivity. }
  split; [apply D|].
  unfold update_item. rewrite D. reflexivity.
Qed.

Lemma sentinel_short_circuits_decoding_witness :
  sentinel_name LWZ_ERRORS (-60) = Some "SENSOR_LEAD_MISSING" /\
  decode LWZ_ERRORS (snd (reg "OUTSIDE_TEMPERATURE" 7 2 (Some "°C") None)) (-60)
    = ok (VStr "SENSOR_LEAD_MISSING").
Proof.
  split; [reflexivity|].
  apply (sentinel_short_circuits_decoding LWZ_ERRORS
           (snd (reg "OUTSIDE_TEMPERATURE" 7 2 (Some "°C") None)) (-60)
           "SENSOR_LEAD_MISSING").
  reflexivity.
Defined.

(** ** Code maps *)

Lemma scan_code_int (cm : code_map) (v : Z) (coded : list string) :
  scan_code (VInt v) cm coded =
  ok match find (fun kv => snd kv =? v) cm with
     | Some (c, _) => [c]
     | None => (coded ++ map fst (filter (fun kv => negb (Z.land v (snd kv) =? 0)) cm))%list
     end.
Proof.
  revert coded.
  induction cm as [|[c m] cm IH]; intro coded; simpl.
  - rewrite app_nil_r. reflexivity.
  - rewrite (Z.eqb_sym m v).
    destruct (v =? m); [reflexivity|].
    simpl. rewrite IH.
    destruct (find (fun kv => snd kv =? v) cm) as [[c' m']|]; [reflexivity|].
    destruct (Z.land v m =? 0); simpl; [reflexivity|].
    rewrite <- app_assoc. reflexivity.
Qed.

Lemma code_labels_zero (cm : code_map) :
  find (fun kv => snd kv =? 0) cm = None -> code_labels cm 0 = [].
Proof.
  intro H. unfold code_labels. rewrite H.
  induction cm as [|[c m] cm IH]; simpl; [reflexivity|].
  simpl in H. destruct (m =? 0); [discriminate|].
  apply IH. exact H.
Qed.

(** Every coded register of the LWZ tables has an integer data type (6 or
    8), so its scaled value is the raw integer. *)
Lemma LWZ_coded_registers_are_integers :
  forallb (fun r : register =>
             match code (snd r) with
             | Some _ => (type (snd r) =? 6) || (type (snd r) =? 8)
             | None => true
             end) (all_registers LWZ_BLOCKS) = true.
Proof. vm_compute. reflexivity. Qed.

(** C4: for a register with a code map and an integer data type, a
    non-sentinel value [v] decodes to the one-element list of the first
    entry equal to [v] when there is one, and otherwise to the labels of all
    entries whose value has a bit in common with [v], in map order; [v = 0]
    with no zero-valued entry decodes to the empty list. *)
Theorem code_map_decoding :
  forall (errors : error_table) (it : item) (cm : code_map) (v : Z),
    code it = Some cm ->
    type it <> 2 -> type it <> 7 ->
    sentinel_name errors v = None ->
    decode errors it v = ok (VList (code_labels cm v)) /\
    (forall c, find (fun kv => snd kv =? v) cm = Some (c, v) ->
               decode errors it v = ok (VList [c])) /\
    (find (fun kv => snd kv =? v) cm = None ->
     decode errors it v
       = ok (VList (map fst (filter (fun kv => negb (Z.land v (snd kv) =? 0)) cm)))) /\
    (v = 0 -> find (fun kv => snd kv =? 0) cm = None ->
     decode errors it v = ok (VList [])).
Proof.
  intros errors it cm v Hc H2 H7 Hs.
  assert (D : decode errors it v = ok (VList (code_labels cm v))).
  { unfold decode. rewrite scan_errors_spec, Hs.
    apply Z.eqb_neq in H2. apply Z.eqb_neq in H7.
    rewrite H2, H7. simpl. rewrite Hc, scan_code_int. reflexivity. }
  split; [exact D|]. split; [|split].
  - intros c Hf. rewrite D. unfold code_labels. rewrite Hf. reflexivity.
  - intro Hf. rewrite D. unfold code_labels. rewrite Hf. reflexivity.
  - intros -> Hf. rewrite D, (code_labels_zero cm Hf). reflexivity.
Qed.

Lemma code_map_decoding_witness :
  decode LWZ_ERRORS (snd (reg "FLAGS" 1 6 None (Some [("A", 1); ("B", 2); ("C", 4)]))) 6
    = ok (VList ["B"; "C"]) /\
  decode LWZ_ERRORS (snd (reg "FLAGS" 1 6 None (Some [("A", 1); ("B", 3); ("C", 2)]))) 3
    = ok (VList ["B"]).
Proof.
  split.
  - refine (proj1 (code_map_decoding LWZ_ERRORS
                     (snd (reg "FLAGS" 1 6 None (Some [("A", 1); ("B", 2); ("C", 4)])))
                     [("A", 1); ("B", 2); ("C", 4)] 6 _ _ _ _));
      [reflexivity | discriminate | discriminate | reflexivity].
  - refine (proj1 (code_map_decoding LWZ_ERRORS
                     (snd (reg "FLAGS" 1 6 None (Some [("A", 1); ("B", 3); ("C", 2)])))
                     [("A", 1); ("B", 3); ("C", 2)] 3 _ _ _ _));
      [reflexivity | discriminate | discriminate | reflexivity].
Defined.

(** On the LWZ tables: every register that carries a code map decodes
    every non-sentinel word to the labels of that map. *)
Lemma LWZ_code_maps_decode (r : register) (cm : code_map) (v : Z) :
  In r (all_registers LWZ_BLOCKS) ->
  code (snd r) = Some cm ->
  sentinel_name LWZ_ERRORS v = None ->
  decode LWZ_ERRORS (snd r) v = ok (VList (code_labels cm v)).
Proof.
  intros I C S.
  pose proof LWZ_coded_registers_are_integers as F.
  rewrite forallb_forall in F. specialize (F r I). rewrite C in F.
  unfold decode. rewrite scan_errors_spec, S.
  apply orb_prop in F. destruct F as [F|F]; apply Z.eqb_eq in F;
    rewrite F; cbn [Z.eqb Pos.eqb bind ok]; rewrite C, scan_code_int;
    reflexivity.
Qed.

(** ** Name lookup *)

Lemma scan_register_set_absent (name : string) (rs : list register)
  (found : option register) :
  ~ In name (map fst rs) -> scan_register_set name rs found = found.
Proof.
  induction rs as [|r rs IH]; simpl; intro H; [reflexivity|].
  destruct (String.eqb_spec (fst r) name) as [E|E].
  - exfalso. apply H. left. exact E.
  - apply IH. intro I. apply H. right. exact I.
Qed.

Lemma scan_block_absent (name : string) (rt : rtype) (b : block)
  (found : option register) :
  (forall rs, block_get rt b = Some rs -> ~ In name (map fst rs)) ->
  scan_block name (Some rt) found b = found.
Proof.
  intro H. unfold scan_block, register_sets.
  destruct (existsb (rtype_eqb rt) (map fst b)); [|reflexivity].
  simpl. destruct (block_get rt b) as [rs|]; simpl; [|reflexivity].
  apply scan_register_set_absent. apply H. reflexivity.
Qed.

Lemma find_in_type_absent (name : string) (rt : rtype) (bs : list block)
  (found : option register) :
  ~ In name (map fst (registers_of_type rt bs)) ->
  fold_left (scan_block name (Some rt)) bs found = found.
Proof.
  revert found.
  induction bs as [|b bs IH]; intros found H; cbn [fold_left]; [reflexivity|].
  unfold registers_of_type in H. cbn [flat_map] in H.
  rewrite map_app, in_app_iff in H.
  rewrite scan_block_absent.
  - apply IH. intro I. apply H. right. exact I.
  - intros rs E I. apply H. left. rewrite E. exact I.
Qed.


(** The names of the LWZ tables are pairwise different, and a lookup by
    any of them yields the register declared under that name. *)
Lemma LWZ_lookup_finds_each_register :
  forallb (fun r : register =>
             match _find_register LWZ_session REGISTERS (fst r) None with
             | inl (Some r') => String.eqb (fst r') (fst r)
                                && (addr (snd r') =? addr (snd r))
             | _ => false
             end) (all_registers LWZ_BLOCKS) = true
  /\ NoDup (map fst (all_registers LWZ_BLOCKS)).
Proof.
  split; [vm_compute; reflexivity|].
  assert (D : forall l : list string,
             (fix nodupb (l : list string) : bool :=
                match l with
                | [] => true
                | x :: l' => negb (existsb (String.eqb x) l') && nodupb l'
                end) l = true -> NoDup l).
  { induction l as [|x l IH]; intro H; [constructor|].
    apply andb_prop in H. destruct H as [H1 H2].
    constructor; [|apply IH; exact H2].
    intro I. apply negb_true_iff in H1.
    assert (E : existsb (String.eqb x) l = true).
    { apply existsb_exists. exists x. split; [exact I | apply String.eqb_refl]. }
    congruence. }
  apply D. vm_compute. reflexivity.
Qed.

Lemma scan_register_set_present (name : string) (rs : list register)
  (found : option register) (r : register) :
  find (fun x => String.eqb (fst x) name) rs = Some r ->
  scan_register_set name rs found = Some r.
Proof.
  induction rs as [|x rs IH]; cbn [find scan_register_set]; [discriminate|].
  destruct (String.eqb (fst x) name); [intro H; exact H | exact IH].
Qed.

(** Whatever the blocks before it matched, a match in the last block is
    the one the scan returns. *)
Lemma later_block_overrides (name : string) (bs : list block) (rt : rtype)
  (rs : list register) (r : register) :
  find (fun x => String.eqb (fst x) name) rs = Some r ->
  fold_left (scan_block name None) (bs ++ [[(rt, rs)]]) None = Some r.
Proof.
  intro F. rewrite fold_left_app. cbn [fold_left].
  unfold scan_block, register_sets.
  cbn [map fst flat_map block_get].
  replace (rtype_eqb rt rt) with true by (destruct rt; reflexivity).
  cbn [app fold_left].
  apply scan_register_set_present. exact F.
Qed.

(** C5 (evaluated where the code departs from it): with the same name in
    the HOLDING lists of two blocks, the lookup, filtered or not, returns
    the register of the later block (address 2), not the first match
    (address 1): [break] leaves the innermost loop only and the later list
    overwrites the result. *)
Theorem find_register_returns_later_duplicate :
  _find_register DUP_session DUP_REGISTERS "SETPOINT" None
    = ok (Some (reg "SETPOINT" 2 6 None None)) /\
  _find_register DUP_session DUP_REGISTERS "SETPOINT" (Some HOLDING)
    = ok (Some (reg "SETPOINT" 2 6 None None)) /\
  hd_error (all_registers [ [ (HOLDING, [ reg "SETPOINT" 1 6 None None ]) ];
                            [ (HOLDING, [ reg "SETPOINT" 2 6 None None ]) ] ])
    = Some (reg "SETPOINT" 1 6 None None).
Proof. repeat split. Qed.

(** ** [set_register] *)




(** ** The catalogue's address order *)

Lemma words_at_succ (mem : Z -> Z) (a : Z) (n : nat) :
  words_at mem a (Z.of_nat (S n)) = mem (a + 1) :: words_at mem (a + 1) (Z.of_nat n).
Proof.
  unfold words_at. rewrite !Nat2Z.id. cbn [seq map].
  f_equal; [f_equal; lia|].
  rewrite <- seq_shift, map_map.
  apply map_ext. intro i. f_equal. lia.
Qed.

(** Where a list is contiguous, the index-for-index mapping of a ranged
    read gives every register the word held at its own address. *)
Lemma contiguous_list_gets_own_words (errors : option error_table)
  (mem : Z -> Z) (rs : list register) (a : Z) :
  contiguous_from a rs = true ->
  forall rs', assign_results errors rs (words_at mem (a - 1) (Z.of_nat (length rs)))
              = (rs', None) ->
  Forall (fun r => value_raw (snd r) = Some (mem (addr (snd r)))) rs'.
Proof.
  revert a. induction rs as [|[name it] rs IH]; intros a C rs' A.
  - cbn in A. injection A as <-. constructor.
  - cbn [contiguous_from] in C. apply andb_prop in C. destruct C as [C1 C2].
    apply Z.eqb_eq in C1.
    cbn [length] in A. rewrite words_at_succ in A. cbn [assign_results] in A.
    replace (a - 1 + 1) with a in A by lia.
    destruct (update_item errors it (mem a)) as [it' [e|]] eqn:U; [discriminate|].
    destruct (assign_results errors rs _) as [rs'' e'] eqn:A'.
    injection A as <- ->.
    replace a with (a + 1 - 1) in A' at 1 by lia.
    constructor.
    + unfold update_item in U. destruct errors as [tbl|]; [|discriminate].
      destruct (decode tbl _ (mem a)); [|discriminate].
      injection U as <-. cbn. rewrite C1. reflexivity.
    + apply (IH (a + 1) C2 rs'' A').
Qed.

(** All register lists of the LWZ tables but the first are contiguous. *)
Lemma LWZ_later_lists_contiguous :
  forallb (fun b : block => forallb (fun l => contiguous (snd l)) b)
    (tl LWZ_BLOCKS) = true.
Proof. vm_compute. reflexivity. Qed.

(** C1 (evaluated where the code departs from it): the INPUT list of LWZ
    block 1 is not contiguous. Its register at index 2 is declared at
    address 4 although the list starts at address 1, and the one declared
    at address 3 sits at index 4; so when every device address holds its
    own number, [update] stores word 3 in the register declared at 4, word
    4 in the one declared at 5 and word 5 in the one declared at 3. *)
Theorem LWZ_block1_addresses_out_of_order :
  (exists rs, block_get INPUT LWZ_block1 = Some rs /\
              contiguous rs = false /\
              option_map (fun r => addr (snd r)) (nth_error rs 0) = Some 1 /\
              nth_error rs 2 = Some (reg "ACTUAL_ROOM_TEMPERATURE_HC2" 4 2 (Some "°C") None) /\
              nth_error rs 4 = Some (reg "RELATIVE_HUMIDITY_HC1" 3 2 (Some "%") None)) /\
  option_map (fun it => (addr it, value_raw it))
    (item_of (LWZ_after_update (fun a => a)) "ACTUAL_ROOM_TEMPERATURE_HC2")
    = Some (4, Some 3) /\
  option_map (fun it => (addr it, value_raw it))
    (item_of (LWZ_after_update (fun a => a)) "SET_ROOM_TEMPERATURE_HC2")
    = Some (5, Some 4) /\
  option_map (fun it => (addr it, value_raw it))
    (item_of (LWZ_after_update (fun a => a)) "RELATIVE_HUMIDITY_HC1")
    = Some (3, Some 5).
Proof.
  split; [|vm_compute; repeat split].
  eexists. split; [reflexivity|]. vm_compute. repeat split.
Qed.

(** ** A unit family without tables *)

(** C10: a session for the unit ['WPM'] is constructed without error, and
    every [update] on it raises [KeyError] for the missing ['BLOCKS'] key:
    it neither returns [False] nor is stopped by the [AttributeError]
    handler, and no request is made. *)
Theorem WPM_update_raises_KeyError :
  __init__ REGISTERS "WPM" false = ok WPM_session /\
  (forall (c : client) (w : io),
      update c WPM_session REGISTERS w = (raise (KeyError "BLOCKS"), REGISTERS, w)) /\
  (forall (c : client) (w : io),
      fst (fst (update c WPM_session REGISTERS w)) <> ok false /\
      fst (fst (update c WPM_session REGISTERS w)) <> ok true).
Proof.
  split; [reflexivity|]. split.
  - intros c w. reflexivity.
  - intros c w. split; discriminate.
Qed.

(** ** Scaling and rounding *)

(** Registers of the integer data types (6 and 8) without a code map keep
    the raw word as their value. *)
Lemma decode_integer_types (errors : error_table) (it : item) (raw : Z) :
  type it <> 2 -> type it <> 7 -> code it = None ->
  sentinel_name errors raw = None ->
  decode errors it raw = ok (VInt raw).
Proof.
  intros H2 H7 Hc Hs. unfold decode. rewrite scan_errors_spec, Hs.
  apply Z.eqb_neq in H2. apply Z.eqb_neq in H7.
  rewrite H2, H7. simpl. rewrite Hc. reflexivity.
Qed.

(** Type 2 at the spec's example: 225 reads as 22.5 and 22.5 writes as 225. *)
Lemma type2_example :
  exists it, item_of REGISTERS "ROOM_TEMP_COOL_DAY_HC1" = Some it /\
             type it = 2 /\
             decode LWZ_ERRORS it 225 = ok (VFloat 22.5) /\
             encode it (VFloat 22.5) = ok (VInt 225).
Proof. eexists. split; [reflexivity|]. vm_compute. repeat split. Qed.

(** C2 (evaluated where the code departs from it): the type-7 register
    GRADIENT_HC1 decodes the raw word 123 to 1.2, one decimal, where two
    decimals give 1.23; writing the decoded 1.2 back sends 120, so the
    round trip loses the hundredths. *)
Theorem type7_decoded_to_one_decimal :
  exists it, item_of REGISTERS "GRADIENT_HC1" = Some it /\
             type it = 7 /\
             decode LWZ_ERRORS it 123 = ok (VFloat 1.2) /\
             PyFloat.round_ndigits (123 * 0.01) 2 = ok 1.23%float /\
             encode it (VFloat 1.2) = ok (VInt 120) /\
             option_map value
               (item_of (LWZ_after_update (fun a => if a =? 1008 then 123 else 0))
                  "GRADIENT_HC1")
               = Some (Some (VFloat 1.2)) /\
             set_register (device_client (fun a => a)) LWZ_session REGISTERS
               "GRADIENT_HC1" (VFloat 1.2) io0
               = (ok tt, {| calls := [WriteRegister 1007 (VInt 120)]; log := [];
                            stdout := [WriteAck] |}).
Proof. eexists. split; [reflexivity|]. vm_compute. repeat split. Qed.

Lemma round_half_even_nearest (n d : Z) :
  0 < d -> nearest_half_even n d (PyFloat.round_half_even n d).
Proof.
  intro Hd. unfold nearest_half_even, PyFloat.round_half_even.
  pose proof (Z.div_mod n d ltac:(lia)) as E.
  pose proof (Z.mod_pos_bound n d Hd) as B.
  set (q := n / d) in *. set (r := n mod d) in *.
  destruct (Z.compare_spec (2 * r) d) as [C|C|C].
  - destruct (Z.even q) eqn:Ev.
    + split; [lia | intros _; exact Ev].
    + split; [lia|]. intros _.
      replace (q + 1) with (Z.succ q) by lia.
      rewrite Z.even_succ, <- Z.negb_even, Ev. reflexivity.
  - split; lia.
  - split; lia.
Qed.

Lemma pow2_pos (e : Z) : 0 < 2 ^ Z.max e 0.
Proof. apply Z.pow_pos_nonneg; lia. Qed.

(** [round(x)] of a finite float is an integer nearest to its exact value,
    the even one on an exact half. *)
Lemma round_int_nearest (x : float) (n e : Z) :
  PyFloat.exact x = Some (n, e) ->
  exists k, PyFloat.round_int x = ok k /\
            nearest_half_even (n * 2 ^ Z.max e 0) (2 ^ Z.max (- e) 0) k.
Proof.
  unfold PyFloat.exact, PyFloat.round_int.
  destruct (Prim2SF x) as [s|s| |s m e']; try discriminate; intro H.
  - injection H as <- <-. exists 0. split; [reflexivity|].
    unfold nearest_half_even. cbn. split; [lia | reflexivity].
  - injection H as <- <-.
    destruct (Z.leb_spec 0 e') as [L|L].
    + eexists. split; [reflexivity|].
      rewrite (Z.max_l e' 0) by lia. rewrite (Z.max_r (- e') 0) by lia.
      unfold nearest_half_even. cbn [Z.pow]. split; lia.
    + eexists. split; [reflexivity|].
      rewrite (Z.max_r e' 0) by lia. rewrite (Z.max_l (- e') 0) by lia.
      cbn [Z.pow]. rewrite Z.mul_1_r.
      apply round_half_even_nearest. apply Z.pow_pos_nonneg; lia.
Qed.

(** C8, as the code has it: the codec's roundings go to the nearest value
    at their precision and an exact half goes to the even neighbour.
    Writing a float [value] to a type-2 (type-7) register sends the integer
    nearest to the product [value * 10] ([value * 100]), the even one on a
    half; reading a type-2 register yields the float nearest to [k / 10]
    where [k] is the integer nearest to ten times the product
    [raw * 0.1], the even one on a half. *)
Theorem codec_rounds_half_to_even :
  (forall (it : item) (value : float) (n e : Z),
      (type it = 2 /\ PyFloat.exact (value * 10) = Some (n, e)) \/
      (type it = 7 /\ PyFloat.exact (value * 100) = Some (n, e)) ->
      exists k, encode it (VFloat value) = ok (VInt k) /\
                nearest_half_even (n * 2 ^ Z.max e 0) (2 ^ Z.max (- e) 0) k) /\
  (forall (errors : error_table) (it : item) (raw : Z) (f : float) (n e : Z),
      type it = 2 -> code it = None ->
      sentinel_name errors raw = None ->
      PyFloat.of_int raw = ok f ->
      PyFloat.exact (f * 0.1) = Some (n, e) ->
      exists k, nearest_half_even (n * 2 ^ Z.max e 0 * 10) (2 ^ Z.max (- e) 0) k /\
                decode errors it raw
                  = (let r := PyFloat.of_ratio (PyFloat.sign_bit (f * 0.1)) k 10 in
                     if is_infinity r then raise OverflowError else ok (VFloat r))).
Proof.
  split.
  - intros it value n e [[T X]|[T X]];
      destruct (round_int_nearest _ n e X) as [k [R N]];
      exists k; (split; [|exact N]);
      unfold encode; rewrite T; cbn [Z.eqb Pos.eqb bind ok py_round_mul_int].
    + change (PyFloat.of_int 10) with (@inl float exn 10%float).
      cbn [bind]. rewrite R. reflexivity.
    + change (PyFloat.of_int 100) with (@inl float exn 100%float).
      cbn [bind]. rewrite R. reflexivity.
  - intros errors it raw f n e T C S F X.
    exists (PyFloat.round_half_even (n * 2 ^ Z.max e 0 * 10) (2 ^ Z.max (- e) 0)).
    split; [apply round_half_even_nearest, pow2_pos|].
    unfold decode. rewrite scan_errors_spec, S, T, C.
    cbn [Z.eqb Pos.eqb py_mul_float bind ok]. rewrite F.
    cbn [bind ok py_round_ndigits]. unfold PyFloat.round_ndigits. rewrite X.
    change (323 <? 1) with false. change (1 <? -308) with false.
    change (Z.max 1 0) with 1. change (Z.max (- 1) 0) with 0.
    change (10 ^ 1) with 10. change (10 ^ 0) with 1.
    cbv iota. rewrite !Z.mul_1_r.
    destruct (is_infinity _); reflexivity.
Qed.

Lemma codec_rounds_half_to_even_witness :
  PyFloat.exact (2.25 * 10) = Some (6333186975989760, -48) /\
  exists k, encode (snd (reg "ROOM_TEMP_HEAT_DAY_HC1" 1002 2 (Some "°C") None))
              (VFloat 2.25) = ok (VInt k) /\
            nearest_half_even (6333186975989760 * 2 ^ Z.max (-48) 0)
              (2 ^ Z.max (- -48) 0) k.
Proof.
  split; [vm_compute; reflexivity|].
  apply (proj1 codec_rounds_half_to_even
           (snd (reg "ROOM_TEMP_HEAT_DAY_HC1" 1002 2 (Some "°C") None))
           2.25%float 6333186975989760 (-48)).
  left. split; vm_compute; reflexivity.
Defined.

(** C8 as stated fails: 2.25 * 10 is exactly 22.5 (45 / 2), half away from
    zero is 23, and the code writes 22. *)
Lemma encode_2_25_is_22_not_23 :
  PyFloat.exact (2.25 * 10) = Some (45 * 2 ^ 47, -48) /\
  round_half_away 45 2 = 23 /\
  encode (snd (reg "ROOM_TEMP_HEAT_DAY_HC1" 1002 2 (Some "°C") None)) (VFloat 2.25)
    = ok (VInt 22) /\
  encode (snd (reg "ROOM_TEMP_HEAT_DAY_HC1" 1002 2 (Some "°C") None)) (VFloat 2.25)
    <> ok (VInt 23).
Proof.
  split; [vm_compute; reflexivity|]. split; [reflexivity|].
  assert (E : encode (snd (reg "ROOM_TEMP_HEAT_DAY_HC1" 1002 2 (Some "°C") None))
                (VFloat 2.25) = ok (VInt 22)) by (vm_compute; reflexivity).
  split; [exact E|]. rewrite E. discriminate.
Qed.

(** ** [update]: short reads and transport faults *)

Lemma block_get_set_other (rt rt' : rtype) (rs : list register) (b : block) :
  rtype_eqb rt rt' = false ->
  block_get rt' (block_set rt rs b) = block_get rt' b.
Proof.
  intro D. induction b as [|[k l] b IH]; cbn [block_set block_get].
  - rewrite D. reflexivity.
  - destruct (rtype_eqb k rt) eqn:E; cbn [block_get].
    + destruct k, rt; try discriminate E; rewrite D;
        destruct rt'; try discriminate D; reflexivity.
    + rewrite IH. reflexivity.
Qed.

Lemma block_get_set_same (rt : rtype) (rs : list register) (b : block) :
  block_get rt (block_set rt rs b) = Some rs.
Proof.
  induction b as [|[k l] b IH]; cbn [block_set block_get].
  - destruct rt; reflexivity.
  - destruct (rtype_eqb k rt) eqn:E; cbn [block_get].
    + destruct rt; reflexivity.
    + rewrite E. exact IH.
Qed.

(** The step for one register type leaves the list of the other type as
    it was. *)
Lemma update_rtype_keeps_other (c : client) (errors : option error_table)
  (rt rt' : rtype) (b : block) (w : io) :
  rtype_eqb rt rt' = false ->
  block_get rt' (fst (fst (update_rtype c errors rt b w))) = block_get rt' b.
Proof.
  intro D. unfold update_rtype.
  destruct (block_get rt b) as [[|[n first] rest]|]; try reflexivity.
  destruct (read_registers c rt _ _ _) as [results| |msg]; [|reflexivity..].
  destruct (negb _ && _); [|reflexivity].
  destruct (assign_results errors _ results) as [rs' e].
  cbn [fst]. apply block_get_set_other. exact D.
Qed.

Lemma update_rtype_absent (c : client) (errors : option error_table)
  (rt : rtype) (b : block) (w : io) :
  block_get rt b = None -> update_rtype c errors rt b w = (b, w, None).
Proof. intro G. unfold update_rtype. rewrite G. reflexivity. Qed.

Section OneList.

Variables (c : client) (errors : option error_table) (rt : rtype).
Variables (name : string) (first : item) (rest : list register).

Let rs : list register := (name, first) :: rest.
Let count : Z := Z.of_nat (length rs).
Let req : request := read_request rt (addr first - 1) count.

(** A read answered with a word list of the wrong length changes nothing
    in the block, logs a warning and raises nothing. *)
Lemma update_rtype_short_read (b : block) (w : io) (results : list Z) :
  block_get rt b = Some rs ->
  read_registers c rt (length (calls w)) (addr first - 1) count = Registers results ->
  length results <> length rs ->
  update_rtype c errors rt b w
    = (b, add_log (add_call w req)
            (Warning_inconsistent count (Z.of_nat (length results))), None).
Proof.
  intros G Rd L. unfold update_rtype. rewrite G. unfold rs at 1.
  fold rs. fold count. rewrite Rd.
  replace (Z.of_nat (length results) =? count) with false.
  - rewrite andb_false_r. reflexivity.
  - symmetry. apply Z.eqb_neq. unfold count. intro E.
    apply Nat2Z.inj in E. apply L. exact E.
Qed.

(** A read answered without registers raises [AttributeError] and
    changes nothing in the block. *)
Lemma update_rtype_fault (b : block) (w : io) :
  block_get rt b = Some rs ->
  read_registers c rt (length (calls w)) (addr first - 1) count = ErrorResponse ->
  update_rtype c errors rt b w = (b, add_call w req, Some AttributeError).
Proof.
  intros G Rd. unfold update_rtype. rewrite G. unfold rs at 1.
  fold rs. fold count. rewrite Rd. reflexivity.
Qed.

(** A read call that raises [ConnectionException] hands that exception
    on and changes nothing in the block. *)
Lemma update_rtype_raised (b : block) (w : io) (msg : string) :
  block_get rt b = Some rs ->
  read_registers c rt (length (calls w)) (addr first - 1) count = CallRaises msg ->
  update_rtype c errors rt b w
    = (b, add_call w req, Some (ConnectionException msg)).
Proof.
  intros G Rd. unfold update_rtype. rewrite G. unfold rs at 1.
  fold rs. fold count. rewrite Rd. reflexivity.
Qed.

(** A block holding one list is processed by the step for that list. *)
Lemma update_block_one_list (block_cnt : Z) (w : io) :
  update_block c errors block_cnt [(rt, rs)] w
    = update_rtype c errors rt [(rt, rs)]
        (add_log w (Info_processing_block block_cnt)).
Proof.
  unfold update_block. destruct rt.
  - pose proof (update_rtype_keeps_other c errors INPUT HOLDING [(INPUT, rs)]
                  (add_log w (Info_processing_block block_cnt)) eq_refl) as K.
    destruct (update_rtype c errors INPUT [(INPUT, rs)] _) as [[b1 w1] [e|]];
      [reflexivity|].
    cbn [fst] in K. apply update_rtype_absent. exact K.
  - reflexivity.
Qed.

End OneList.

Lemma update_blocks_app (c : client) (errors : option error_table)
  (pre post : list block) :
  forall (block_cnt : Z) (w : io),
    update_blocks c errors block_cnt (pre ++ post) w =
    match update_blocks c errors block_cnt pre w with
    | (pre', w1, Some e) => ((pre' ++ post)%list, w1, Some e)
    | (pre', w1, None) =>
        match update_blocks c errors (block_cnt + Z.of_nat (length pre)) post w1 with
        | (post', w2, e) => ((pre' ++ post')%list, w2, e)
        end
    end.
Proof.
  induction pre as [|b pre IH]; intros block_cnt w.
  - cbn [app update_blocks length Z.of_nat]. rewrite Z.add_0_r.
    destruct (update_blocks c errors block_cnt post w) as [[post' w2] e].
    reflexivity.
  - cbn [app update_blocks].
    destruct (update_block c errors block_cnt b w) as [[b1 w1] [e|]];
      [reflexivity|].
    rewrite IH.
    destruct (update_blocks c errors (block_cnt + 1) pre w1) as [[pre' w2] [e|]];
      [reflexivity|].
    replace (block_cnt + 1 + Z.of_nat (length pre))
      with (block_cnt + Z.of_nat (length (b :: pre)))
      by (cbn [length]; lia).
    destruct (update_blocks c errors _ post w2) as [[post' w3] e].
    reflexivity.
Qed.

(** [update] never lets an [AttributeError] out. *)
Lemma update_never_raises_AttributeError (c : client) (s : session)
  (R : registers) (w : io) :
  fst (fst (update c s R w)) <> raise AttributeError.
Proof.
  unfold update.
  destruct (dict_get (_unit s) R) as [fam|]; [|discriminate].
  destruct (BLOCKS fam) as [bs|]; [|discriminate].
  destruct (update_blocks c (ERRORS fam) 1 bs w) as [[bs' w'] [e|]];
    [|discriminate].
  destruct e; discriminate.
Qed.

Section OneCall.

Variables (c : client) (s : session) (R : registers) (w : io) (fam : family).
Variables (pre post : list block) (rt : rtype).
Variables (name : string) (first : item) (rest : list register).

Let rs : list register := (name, first) :: rest.
Let count : Z := Z.of_nat (length rs).
Let block_cnt : Z := 1 + Z.of_nat (length pre).
Let req : request := read_request rt (addr first - 1) count.

Hypothesis unit_tables : dict_get (_unit s) R = Some fam.
Hypothesis unit_blocks : BLOCKS fam = Some (pre ++ [(rt, rs)] :: post)%list.

(** The blocks before the list in question were processed without an
    exception, giving [pre'] and leaving the connection at [w1]. *)
Variables (pre' : list block) (w1 : io).
Hypothesis earlier_blocks :
  update_blocks c (ERRORS fam) 1 pre w = (pre', w1, None).

(** C6: when the read for one list returns a word list of another length
    than requested, that list is in the catalogue after the call exactly
    as before it, the blocks before and after it hold what their own reads
    produced, and the call's result is the one the remaining blocks
    produce: [True] unless one of them meets a transport fault, so never
    [False] on account of the short read. *)
Theorem short_read_leaves_list_unchanged :
  forall (results : list Z) (post' : list block) (w3 : io) (e : option exn),
    read_registers c rt (length (calls w1)) (addr first - 1) count
      = Registers results ->
    length results <> length rs ->
    update_blocks c (ERRORS fam) (block_cnt + 1) post
      (add_log (add_call (add_log w1 (Info_processing_block block_cnt)) req)
         (Warning_inconsistent count (Z.of_nat (length results))))
      = (post', w3, e) ->
    update c s R w =
      (match e with
       | None => ok true
       | Some AttributeError => ok false
       | Some x => raise x
       end,
       set_blocks R (_unit s) (pre' ++ [(rt, rs)] :: post'),
       match e with
       | Some AttributeError => add_log w3 Exception_modbus_read_failed
       | _ => w3
       end).
Proof.
  intros results post' w3 e Rd L P.
  unfold update. rewrite unit_tables, unit_blocks.
  rewrite update_blocks_app, earlier_blocks.
  cbn [update_blocks]. fold block_cnt. change rs with ((name, first) :: rest).
  rewrite (update_block_one_list c (ERRORS fam) rt name first rest block_cnt w1).
  rewrite (update_rtype_short_read c (ERRORS fam) rt name first rest
             [(rt, rs)] _ results);
    [| destruct rt; reflexivity | exact Rd | exact L].
  fold rs count req. rewrite P.
  destruct e as [[]|]; reflexivity.
Qed.

(** C7, as the code has it: the handler of [update] catches
    [AttributeError] only.  When the read for one list is answered without
    registers (the fault that shows as [AttributeError] on [.registers]),
    [update] returns [False] instead of raising, logs the failure, makes
    no further request and leaves the later blocks untouched, while the
    blocks processed before keep their new values.  When the read call
    itself raises [ConnectionException], that exception leaves [update]:
    nothing is returned and the failure is not logged; again no further
    request is made, the later blocks are untouched and the blocks
    processed before keep their new values. *)
Theorem transport_fault_stops_update :
  (read_registers c rt (length (calls w1)) (addr first - 1) count
     = ErrorResponse ->
   update c s R w =
     (ok false,
      set_blocks R (_unit s) (pre' ++ [(rt, rs)] :: post),
      add_log (add_call (add_log w1 (Info_processing_block block_cnt)) req)
        Exception_modbus_read_failed)) /\
  (forall msg : string,
     read_registers c rt (length (calls w1)) (addr first - 1) count
       = CallRaises msg ->
     update c s R w =
       (raise (ConnectionException msg),
        set_blocks R (_unit s) (pre' ++ [(rt, rs)] :: post),
        add_call (add_log w1 (Info_processing_block block_cnt)) req)).
Proof.
  split; [intro Rd | intros msg Rd];
    unfold update; rewrite unit_tables, unit_blocks;
    rewrite update_blocks_app, earlier_blocks;
    cbn [update_blocks]; fold block_cnt; change rs with ((name, first) :: rest);
    rewrite (update_block_one_list c (ERRORS fam) rt name first rest block_cnt w1).
  - rewrite (update_rtype_fault c (ERRORS fam) rt name first rest [(rt, rs)] _);
      [| destruct rt; reflexivity | exact Rd].
    reflexivity.
  - rewrite (update_rtype_raised c (ERRORS fam) rt name first rest [(rt, rs)] _ msg);
      [| destruct rt; reflexivity | exact Rd].
    reflexivity.
Qed.

End OneCall.

Lemma short_read_leaves_list_unchanged_witness :
  fst (fst (update (short_client (fun a => a) 1) LWZ_session REGISTERS io0)) = ok true /\
  log (snd (update (short_client (fun a => a) 1) LWZ_session REGISTERS io0))
    = [ Info_processing_block 1; Info_processing_block 2;
        Warning_inconsistent 27 26; Info_processing_block 3;
        Info_processing_block 4; Info_processing_block 5;
        Info_processing_block 6 ] /\
  map (fun n => option_map (fun it => (value_raw it, value it))
                  (item_of (snd (fst (update (short_client (fun a => a) 1)
                                        LWZ_session REGISTERS io0))) n))
    [ "FLOW_RATE"; "OPERATING_MODE"; "DAY_STAGE"; "DEFROST_INITIATED" ]
    = [ Some (Some 15, Some (VFloat 1.5)); Some (None, None); Some (None, None);
        Some (Some 2004, Some (VList [])) ].
Proof.
  pose (c := short_client (fun a => a) 1).
  pose (u := update_blocks c (Some LWZ_ERRORS) 1 [LWZ_block1] io0).
  assert (E : update_blocks c (Some LWZ_ERRORS) 1 [LWZ_block1] io0
              = (fst (fst u), snd (fst u), None)) by (vm_compute; reflexivity).
  pose (u2 := update_blocks c (Some LWZ_ERRORS) (1 + 1 + 1) (tl (tl LWZ_BLOCKS))
                (add_log
                   (add_call (add_log (snd (fst u)) (Info_processing_block (1 + 1)))
                      (ReadHolding 1000 27))
                   (Warning_inconsistent 27 26))).
  assert (E2 : u2 = (fst (fst u2), snd (fst u2), snd u2))
    by (destruct u2 as [[x y] z]; reflexivity).
  fold c.
  rewrite (short_read_leaves_list_unchanged c LWZ_session REGISTERS io0
             {| ERRORS := Some LWZ_ERRORS; BLOCKS := Some LWZ_BLOCKS |}
             [LWZ_block1] (tl (tl LWZ_BLOCKS)) HOLDING
             "OPERATING_MODE" LWZ_block2_first LWZ_block2_rest
             eq_refl eq_refl (fst (fst u)) (snd (fst u)) E
             (words_at (fun a => a) 1000 26)
             (fst (fst u2)) (snd (fst u2)) (snd u2)
             ltac:(vm_compute; reflexivity)
             ltac:(vm_compute; discriminate)
             E2).
  vm_compute. repeat split.
Defined.

Lemma transport_fault_stops_update_witness :
  (fst (fst (update (failing_client (fun a => a) 1) LWZ_session REGISTERS io0)) = ok false /\
   calls (snd (update (failing_client (fun a => a) 1) LWZ_session REGISTERS io0))
     = [ ReadInput 0 33; ReadHolding 1000 27 ] /\
   log (snd (update (failing_client (fun a => a) 1) LWZ_session REGISTERS io0))
     = [ Info_processing_block 1; Info_processing_block 2;
         Exception_modbus_read_failed ] /\
   map (fun n => option_map (fun it => (value_raw it, value it))
                   (item_of (snd (fst (update (failing_client (fun a => a) 1)
                                         LWZ_session REGISTERS io0))) n))
     [ "FLOW_RATE"; "OPERATING_MODE"; "DEFROST_INITIATED" ]
     = [ Some (Some 15, Some (VFloat 1.5)); Some (None, None); Some (None, None) ]) /\
  (fst (fst (update (lost_client (fun a => a) 1) LWZ_session REGISTERS io0))
     = raise (ConnectionException "Failed to connect") /\
   calls (snd (update (lost_client (fun a => a) 1) LWZ_session REGISTERS io0))
     = [ ReadInput 0 33; ReadHolding 1000 27 ] /\
   log (snd (update (lost_client (fun a => a) 1) LWZ_session REGISTERS io0))
     = [ Info_processing_block 1; Info_processing_block 2 ] /\
   map (fun n => option_map (fun it => (value_raw it, value it))
                   (item_of (snd (fst (update (lost_client (fun a => a) 1)
                                         LWZ_session REGISTERS io0))) n))
     [ "FLOW_RATE"; "OPERATING_MODE"; "DEFROST_INITIATED" ]
     = [ Some (Some 15, Some (VFloat 1.5)); Some (None, None); Some (None, None) ]).
Proof.
  split.
  - pose (c := failing_client (fun a => a) 1).
    pose (u := update_blocks c (Some LWZ_ERRORS) 1 [LWZ_block1] io0).
    assert (E : update_blocks c (Some LWZ_ERRORS) 1 [LWZ_block1] io0
                = (fst (fst u), snd (fst u), None)) by (vm_compute; reflexivity).
    fold c.
    rewrite (proj1 (transport_fault_stops_update c LWZ_session REGISTERS io0
                      {| ERRORS := Some LWZ_ERRORS; BLOCKS := Some LWZ_BLOCKS |}
                      [LWZ_block1] (tl (tl LWZ_BLOCKS)) HOLDING
                      "OPERATING_MODE" LWZ_block2_first LWZ_block2_rest
                      eq_refl eq_refl (fst (fst u)) (snd (fst u)) E)
               ltac:(vm_compute; reflexivity)).
    vm_compute. repeat split.
  - pose (c := lost_client (fun a => a) 1).
    pose (u := update_blocks c (Some LWZ_ERRORS) 1 [LWZ_block1] io0).
    assert (E : update_blocks c (Some LWZ_ERRORS) 1 [LWZ_block1] io0
                = (fst (fst u), snd (fst u), None)) by (vm_compute; reflexivity).
    fold c.
    rewrite (proj2 (transport_fault_stops_update c LWZ_session REGISTERS io0
                      {| ERRORS := Some LWZ_ERRORS; BLOCKS := Some LWZ_BLOCKS |}
                      [LWZ_block1] (tl (tl LWZ_BLOCKS)) HOLDING
                      "OPERATING_MODE" LWZ_block2_first LWZ_block2_rest
                      eq_refl eq_refl (fst (fst u)) (snd (fst u)) E)
               "Failed to connect" ltac:(vm_compute; reflexivity)).
    vm_compute. repeat split.
Defined.

(** A read call that raises [ConnectionException] is a transport fault
    that [update] does not turn into [False]: with the second request of
    an LWZ pass raising, the exception leaves [update], and the log holds
    no failure record. *)
Lemma raised_fault_leaves_update :
  read_holding_registers (lost_client (fun a => a) 1) 1 1000 27
    = CallRaises "Failed to connect" /\
  fst (fst (update (lost_client (fun a => a) 1) LWZ_session REGISTERS io0))
    = raise (ConnectionException "Failed to connect") /\
  fst (fst (update (lost_client (fun a => a) 1) LWZ_session REGISTERS io0))
    <> ok false /\
  log (snd (update (lost_client (fun a => a) 1) LWZ_session REGISTERS io0))
    = [ Info_processing_block 1; Info_processing_block 2 ].
Proof.
  split; [reflexivity|].
  assert (E : update (lost_client (fun a => a) 1) LWZ_session REGISTERS io0
              = (raise (ConnectionException "Failed to connect"),
                 snd (fst (update (lost_client (fun a => a) 1) LWZ_session
                             REGISTERS io0)),
                 {| calls := [ ReadInput 0 33; ReadHolding 1000 27 ];
                    log := [ Info_processing_block 1; Info_processing_block 2 ];
                    stdout := [] |}))
    by (vm_compute; reflexivity).
  rewrite E. cbn [fst snd log].
  split; [reflexivity|]. split; [discriminate | reflexivity].
Qed.

(** A short read that is all there is to fetch still ends in [True]. *)
Lemma sole_short_read_returns_true :
  update (short_client (fun a => a) 0)
    {| _unit := "ONE"; _slave := 1; _update_on_read := false |}
    [ ("ONE", {| ERRORS := Some []; BLOCKS := Some [ LWZ_block5 ] |}) ] io0
  = (ok true,
     [ ("ONE", {| ERRORS := Some []; BLOCKS := Some [ LWZ_block5 ] |}) ],
     {| calls := [ ReadHolding 4000 3 ];
        log := [ Info_processing_block 1; Warning_inconsistent 3 2 ];
        stdout := [] |}).
Proof. vm_compute. reflexivity. Qed.

(** * Further properties of the session *)

Open Scope list_scope.

(** ** Lookup by name *)

Lemma rtype_eqb_eq (a b : rtype) : rtype_eqb a b = true <-> a = b.
Proof. destruct a, b; split; intro H; try reflexivity; discriminate H. Qed.

Lemma scan_register_set_find (name : string) (rs : list register)
  (found : option register) :
  scan_register_set name rs found =
  match find (fun x => String.eqb (fst x) name) rs with
  | Some r => Some r
  | None => found
  end.
Proof.
  induction rs as [|x rs IH]; cbn [find scan_register_set]; [reflexivity|].
  destruct (String.eqb (fst x) name); [reflexivity | exact IH].
Qed.

Lemma block_keys_get (rt : rtype) (b : block) :
  existsb (rtype_eqb rt) (map fst b) = true <-> block_get rt b <> None.
Proof.
  induction b as [|[k l] b IH]; cbn [map fst existsb block_get].
  - split; [discriminate | intro H; exfalso; apply H; reflexivity].
  - destruct (rtype_eqb k rt) eqn:E.
    + apply rtype_eqb_eq in E. subst k.
      replace (rtype_eqb rt rt) with true by (destruct rt; reflexivity).
      split; [discriminate | reflexivity].
    + replace (rtype_eqb rt k) with false
        by (destruct rt, k; try reflexivity; discriminate E).
      exact IH.
Qed.

Lemma scan_block_filtered (name : string) (rt : rtype) (b : block)
  (found : option register) :
  scan_block name (Some rt) found b =
  match block_get rt b with
  | Some rs => scan_register_set name rs found
  | None => found
  end.
Proof.
  unfold scan_block, register_sets. cbn [flat_map].
  pose proof (block_keys_get rt b) as K.
  destruct (block_get rt b) as [rs|].
  - replace (existsb (rtype_eqb rt) (map fst b)) with true
      by (symmetry; apply K; discriminate).
    reflexivity.
  - destruct (existsb (rtype_eqb rt) (map fst b)); reflexivity.
Qed.

(** The scan over one register set only ever yields what it was given or
    a register of that set with the wanted name, and yields something
    whenever the set has the name. *)
Lemma scan_register_set_sound (name : string) (rs : list register)
  (found : option register) (r : register) :
  scan_register_set name rs found = Some r ->
  found = Some r \/ (fst r = name /\ In r rs).
Proof.
  rewrite scan_register_set_find.
  destruct (find (fun x => String.eqb (fst x) name) rs) as [x|] eqn:F.
  - intro H. injection H as <-. right.
    apply find_some in F. destruct F as [I E].
    apply String.eqb_eq in E. split; assumption.
  - intro H. left. exact H.
Qed.

Lemma scan_register_set_complete (name : string) (rs : list register)
  (found : option register) :
  found <> None \/ In name (map fst rs) ->
  scan_register_set name rs found <> None.
Proof.
  rewrite scan_register_set_find.
  destruct (find (fun x => String.eqb (fst x) name) rs) as [x|] eqn:F;
    [discriminate|].
  intros [H|H]; [exact H|].
  apply in_map_iff in H. destruct H as [r [E I]].
  pose proof (find_none _ _ F r I) as N. cbn in N.
  rewrite E, String.eqb_refl in N. discriminate N.
Qed.

Lemma find_filtered_sound (name : string) (rt : rtype) (bs : list block) :
  forall (found : option register) (r : register),
    fold_left (scan_block name (Some rt)) bs found = Some r ->
    found = Some r \/ (fst r = name /\ In r (registers_of_type rt bs)).
Proof.
  induction bs as [|b bs IH]; intros found r H; cbn [fold_left] in H.
  - left. exact H.
  - apply IH in H. unfold registers_of_type. cbn [flat_map].
    fold (registers_of_type rt bs).
    destruct H as [H|[E I]].
    + rewrite scan_block_filtered in H.
      destruct (block_get rt b) as [rs|]; [|left; exact H].
      apply scan_register_set_sound in H.
      destruct H as [H|[E I]]; [left; exact H|].
      right. split; [exact E|]. apply in_or_app. left. exact I.
    + right. split; [exact E|]. apply in_or_app. right. exact I.
Qed.

Lemma find_filtered_complete (name : string) (rt : rtype) (bs : list block) :
  forall (found : option register),
    found <> None \/ In name (map fst (registers_of_type rt bs)) ->
    fold_left (scan_block name (Some rt)) bs found <> None.
Proof.
  induction bs as [|b bs IH]; intros found H; cbn [fold_left].
  - destruct H as [H|H]; [exact H | destruct H].
  - apply IH. unfold registers_of_type in H. cbn [flat_map] in H.
    fold (registers_of_type rt bs) in H.
    rewrite map_app, in_app_iff in H.
    rewrite scan_block_filtered.
    destruct (block_get rt b) as [rs|].
    + destruct H as [H|[H|H]].
      * left. apply scan_register_set_complete. left. exact H.
      * left. apply scan_register_set_complete. right. exact H.
      * right. exact H.
    + destruct H as [H|[H|H]]; [left; exact H | destruct H | right; exact H].
Qed.

Lemma find_register_filtered_facts :
  forall (s : session) (R : registers) (bs : list block) (name : string)
         (rt : rtype),
    get_registers s R = ok bs ->
    (forall r, _find_register s R name (Some rt) = ok (Some r) ->
               fst r = name /\ In r (registers_of_type rt bs)) /\
    (_find_register s R name (Some rt) = ok None <->
     ~ In name (map fst (registers_of_type rt bs))).
Proof.
  intros s R bs name rt G. unfold _find_register. rewrite G. cbn [bind ok].
  split.
  - intros r H. injection H as H.
    apply find_filtered_sound in H. destruct H as [H|H]; [discriminate H | exact H].
  - split.
    + intros H I. injection H as H.
      apply (find_filtered_complete name rt bs None); [right; exact I | exact H].
    + intro N. rewrite find_in_type_absent; [reflexivity | exact N].
Qed.



Lemma register_sets_in (b : block) (ks : list rtype) (rs : list register) :
  In rs (register_sets b ks) <-> exists k, In k ks /\ block_get k b = Some rs.
Proof.
  unfold register_sets. rewrite in_flat_map. split.
  - intros [k [I H]]. exists k. split; [exact I|].
    destruct (block_get k b) as [l|]; [|destruct H].
    destruct H as [H|[]]. rewrite H. reflexivity.
  - intros [k [I H]]. exists k. split; [exact I|]. rewrite H. left. reflexivity.
Qed.









(** ** Writing *)



(** X4: a register with a code map takes no label. A string or a list of
    labels, such as [update] stores as the decoded value, is refused
    before anything is sent: with "Value not supported!" on the integer
    data types, with [TypeError] on the scaled ones. *)
Theorem set_register_refuses_labels :
  forall (c : client) (s : session) (R : registers) (name n : string)
         (it : item) (cm : code_map) (value : pyval) (w : io),
    _find_register s R name (Some HOLDING) = ok (Some (n, it)) ->
    code it = Some cm ->
    (exists l, value = VStr l) \/ (exists ls, value = VList ls) ->
    set_register c s R name value w
      = (raise (if (type it =? 2) || (type it =? 7)
                then TypeError else Exception not_supported_msg), w).
Proof.
  intros c s R name n it cm value w F C V.
  assert (N : forall m, py_eq value (VInt m) = false)
    by (intro m; destruct V as [[l ->]|[ls ->]]; reflexivity).
  assert (I : value_in_code value cm = false).
  { unfold value_in_code. clear C.
    induction cm as [|kv cm IH]; cbn [existsb]; [reflexivity|].
    rewrite N. exact IH. }
  unfold set_register. rewrite F. cbn [ok]. unfold encode.
  destruct (type it =? 2) eqn:T2.
  - destruct V as [[l ->]|[ls ->]]; reflexivity.
  - cbn [bind ok orb]. destruct (type it =? 7) eqn:T7.
    + destruct V as [[l ->]|[ls ->]]; reflexivity.
    + cbn [bind ok]. rewrite C, I. reflexivity.
Qed.

Lemma set_register_refuses_labels_witness :
  set_register (device_client (fun a => a)) LWZ_session REGISTERS
    "OPERATING_MODE" (VList ["DAY MODE"]) io0
  = (raise (Exception not_supported_msg), io0).
Proof.
  refine (set_register_refuses_labels (device_client (fun a => a)) LWZ_session
            REGISTERS "OPERATING_MODE" "OPERATING_MODE" LWZ_block2_first _
            (VList ["DAY MODE"]) io0 eq_refl eq_refl _).
  right. exists ["DAY MODE"]. reflexivity.
Defined.

(** ** What [update] leaves alone *)

Lemma update_item_spec (errors : option error_table) (it : item) (raw : Z) :
  spec_of (fst (update_item errors it raw)) = spec_of it.
Proof.
  unfold update_item. destruct errors as [tbl|]; [|reflexivity].
  destruct (decode tbl (set_value_raw it raw) raw); reflexivity.
Qed.

Lemma assign_results_specs (errors : option error_table) (rs : list register) :
  forall results : list Z,
    specs_of_list (fst (assign_results errors rs results)) = specs_of_list rs.
Proof.
  induction rs as [|[n it] rs IH]; intros [|x results]; cbn [assign_results];
    try reflexivity.
  pose proof (update_item_spec errors it x) as U.
  destruct (update_item errors it x) as [it' [e|]]; cbn [fst] in U |- *.
  - cbn [specs_of_list map fst snd]. rewrite U. reflexivity.
  - specialize (IH results).
    destruct (assign_results errors rs results) as [rs'' e'].
    cbn [fst] in IH |- *. unfold specs_of_list in IH |- *.
    cbn [map fst snd]. rewrite U, IH. reflexivity.
Qed.

Lemma block_set_specs (rt : rtype) (rs rs' : list register) (b : block) :
  block_get rt b = Some rs ->
  specs_of_list rs' = specs_of_list rs ->
  specs_of_block (block_set rt rs' b) = specs_of_block b.
Proof.
  intros G E. induction b as [|[k l] b IH]; [discriminate G|].
  cbn [block_get] in G. cbn [block_set].
  destruct (rtype_eqb k rt) eqn:K.
  - injection G as ->. apply rtype_eqb_eq in K. subst k.
    cbn [specs_of_block map fst snd]. rewrite E. reflexivity.
  - cbn [specs_of_block map fst snd]. f_equal. apply IH. exact G.
Qed.

Lemma update_rtype_specs (c : client) (errors : option error_table)
  (rt : rtype) (b : block) (w : io) :
  specs_of_block (fst (fst (update_rtype c errors rt b w))) = specs_of_block b.
Proof.
  unfold update_rtype.
  destruct (block_get rt b) as [[|[n first] rest]|] eqn:G; try reflexivity.
  destruct (read_registers c rt _ _ _) as [results| |msg]; [|reflexivity..].
  destruct (negb _ && _); [|reflexivity].
  pose proof (assign_results_specs errors ((n, first) :: rest) results) as A.
  destruct (assign_results errors _ results) as [rs' e].
  cbn [fst] in A |- *. apply (block_set_specs rt _ rs' b G A).
Qed.

Lemma update_block_specs (c : client) (errors : option error_table)
  (block_cnt : Z) (b : block) (w : io) :
  specs_of_block (fst (fst (update_block c errors block_cnt b w)))
    = specs_of_block b.
Proof.
  unfold update_block.
  pose proof (update_rtype_specs c errors INPUT b
                (add_log w (Info_processing_block block_cnt))) as A.
  destruct (update_rtype c errors INPUT b _) as [[b1 w1] [e|]];
    cbn [fst] in A |- *; [exact A|].
  rewrite update_rtype_specs. exact A.
Qed.

Lemma update_blocks_specs (c : client) (errors : option error_table)
  (bs : list block) :
  forall (block_cnt : Z) (w : io),
    map specs_of_block (fst (fst (update_blocks c errors block_cnt bs w)))
      = map specs_of_block bs.
Proof.
  induction bs as [|b bs IH]; intros block_cnt w; cbn [update_blocks];
    [reflexivity|].
  pose proof (update_block_specs c errors block_cnt b w) as A.
  destruct (update_block c errors block_cnt b w) as [[b1 w1] [e|]];
    cbn [fst] in A |- *.
  - cbn [map]. rewrite A. reflexivity.
  - specialize (IH (block_cnt + 1) w1).
    destruct (update_blocks c errors (block_cnt + 1) bs w1) as [[bs1 w2] e].
    cbn [fst] in IH |- *. cbn [map]. rewrite A, IH. reflexivity.
Qed.

Lemma dict_set_specs (u : string) (fam : family) (bs bs' : list block)
  (R : registers) :
  dict_get u R = Some fam ->
  BLOCKS fam = Some bs ->
  map specs_of_block bs' = map specs_of_block bs ->
  specs_of (dict_set u {| ERRORS := ERRORS fam; BLOCKS := Some bs' |} R)
    = specs_of R.
Proof.
  intros G B E. induction R as [|[k f] R IH]; [discriminate G|].
  cbn [dict_get] in G. cbn [dict_set].
  destruct (String.eqb k u) eqn:K.
  - injection G as ->. apply String.eqb_eq in K. subst k.
    cbn [specs_of map fst snd ERRORS BLOCKS option_map].
    rewrite B. cbn [option_map]. rewrite E. reflexivity.
  - cbn [specs_of map]. f_equal. apply IH. exact G.
Qed.

Lemma update_specs_kept :
  forall (c : client) (s : session) (R : registers) (w : io),
    specs_of (snd (fst (update c s R w))) = specs_of R.
Proof.
  intros c s R w. unfold update.
  destruct (dict_get (_unit s) R) as [fam|] eqn:G; [|reflexivity].
  destruct (BLOCKS fam) as [bs|] eqn:B; [|reflexivity].
  pose proof (update_blocks_specs c (ERRORS fam) bs 1 w) as A.
  destruct (update_blocks c (ERRORS fam) 1 bs w) as [[bs' w'] e].
  cbn [fst] in A.
  assert (E : specs_of (set_blocks R (_unit s) bs') = specs_of R).
  { unfold set_blocks. rewrite G. apply (dict_set_specs _ fam bs bs' R G B A). }
  destruct e as [[]|]; exact E.
Qed.

(** X5: [update] never changes a catalogue entry's name, address, data
    type, unit or code map, nor the error tables, the number of blocks or
    the length of a list, whatever the client answers and however the call
    ends; only the stored raw words and decoded values differ afterwards. *)
Theorem update_keeps_specs :
  forall (c : client) (s : session) (R : registers) (w : io),
    specs_of (snd (fst (update c s R w))) = specs_of R.
Proof. exact update_specs_kept. Qed.

(** ** What decoding can raise *)

Lemma of_int_raises (z : Z) (e : exn) :
  PyFloat.of_int z = raise e -> e = OverflowError.
Proof.
  unfold PyFloat.of_int, raise, ok.
  destruct (is_infinity _); intro H; [|discriminate H].
  injection H as <-. reflexivity.
Qed.

Lemma round_ndigits_raises (x : float) (n : Z) (e : exn) :
  PyFloat.round_ndigits x n = raise e -> e = OverflowError.
Proof.
  unfold PyFloat.round_ndigits, raise, ok.
  destruct (PyFloat.exact x) as [[m k]|]; [|discriminate].
  destruct (323 <? n); [discriminate|].
  destruct (n <? -308); [discriminate|].
  destruct (is_infinity _); intro H; [|discriminate H].
  injection H as <-. reflexivity.
Qed.

Lemma scale_raises (result : pyval) (k : float) (e : exn) :
  (p <- py_mul_float result k ;; py_round_ndigits p 1) = raise e ->
  e = OverflowError \/ e = TypeError.
Proof.
  unfold raise.
  assert (Rd : forall f, (r <- PyFloat.round_ndigits f 1 ;; ok (VFloat r)) = inr e ->
                         e = OverflowError).
  { intro f. destruct (PyFloat.round_ndigits f 1) as [r|e'] eqn:Rn;
      [discriminate|].
    intro H. injection H as <-. apply (round_ndigits_raises _ _ _ Rn). }
  destruct result as [z|f|s|l].
  - cbn [py_mul_float]. destruct (PyFloat.of_int z) as [f|e'] eqn:O.
    + intro H. left. apply (Rd (f * k)%float). exact H.
    + intro H. injection H as <-. left. apply (of_int_raises _ _ O).
  - intro H. left. apply (Rd (f * k)%float). exact H.
  - intro H. injection H as <-. right. reflexivity.
  - intro H. injection H as <-. right. reflexivity.
Qed.

Lemma scan_code_raises (result : pyval) (cm : code_map) :
  forall (coded : list string) (e : exn),
    scan_code result cm coded = raise e -> e = TypeError.
Proof.
  unfold raise.
  induction cm as [|[c v] cm IH]; intros coded e; cbn [scan_code];
    [discriminate|].
  destruct (py_eq result (VInt v)); [discriminate|].
  destruct result as [z|f|s|l]; cbn [py_and_true bind ok raise];
    try (intro H; injection H as <-; reflexivity).
  apply IH.
Qed.

Lemma decode_raise_cases :
  forall (errors : error_table) (it : item) (raw : Z) (e : exn),
    decode errors it raw = raise e -> e = OverflowError \/ e = TypeError.
Proof.
  intros errors it raw e. unfold decode, raise.
  destruct (scan_errors errors raw) as [[|] result]; [discriminate|].
  destruct (type it =? 2).
  - destruct (p <- py_mul_float result 0.1 ;; py_round_ndigits p 1)
      as [r1|e1] eqn:S1; cbn [bind].
    + destruct (type it =? 7).
      * destruct (p <- py_mul_float r1 0.01 ;; py_round_ndigits p 1)
          as [r2|e2] eqn:S2; cbn [bind].
        -- destruct (code it) as [cm|]; [|discriminate].
           destruct (scan_code r2 cm []) as [l|e3] eqn:S3; cbn [bind];
             [discriminate|].
           intro H. injection H as <-. right. apply (scan_code_raises _ _ _ _ S3).
        -- intro H. injection H as <-. apply (scale_raises _ _ _ S2).
      * cbn [bind ok]. destruct (code it) as [cm|]; [|discriminate].
        destruct (scan_code r1 cm []) as [l|e3] eqn:S3; cbn [bind];
          [discriminate|].
        intro H. injection H as <-. right. apply (scan_code_raises _ _ _ _ S3).
    + intro H. injection H as <-. apply (scale_raises _ _ _ S1).
  - cbn [bind ok]. destruct (type it =? 7).
    + destruct (p <- py_mul_float result 0.01 ;; py_round_ndigits p 1)
        as [r2|e2] eqn:S2; cbn [bind].
      * destruct (code it) as [cm|]; [|discriminate].
        destruct (scan_code r2 cm []) as [l|e3] eqn:S3; cbn [bind];
          [discriminate|].
        intro H. injection H as <-. right. apply (scan_code_raises _ _ _ _ S3).
      * intro H. injection H as <-. apply (scale_raises _ _ _ S2).
    + cbn [bind ok]. destruct (code it) as [cm|]; [|discriminate].
      destruct (scan_code result cm []) as [l|e3] eqn:S3; cbn [bind];
        [discriminate|].
      intro H. injection H as <-. right. apply (scan_code_raises _ _ _ _ S3).
Qed.

(** X6: decoding a word raises nothing but [OverflowError] (the word does
    not fit a float) or [TypeError] (a code map on a scaled value); in
    particular never the [AttributeError] that [update] takes for a
    transport fault. *)
Theorem decode_raises_only :
  forall (errors : error_table) (it : item) (raw : Z) (e : exn),
    decode errors it raw = raise e -> e = OverflowError \/ e = TypeError.
Proof. exact decode_raise_cases. Qed.

Lemma decode_raises_only_witness :
  decode LWZ_ERRORS (snd (reg "FLAGS" 1 2 None (Some [("A", 2); ("B", 1)]))) 10
    = raise TypeError /\
  (TypeError = OverflowError \/ TypeError = TypeError).
Proof.
  split; [vm_compute; reflexivity|].
  apply (decode_raises_only LWZ_ERRORS
           (snd (reg "FLAGS" 1 2 None (Some [("A", 2); ("B", 1)]))) 10 TypeError).
  vm_compute. reflexivity.
Defined.

(** ** The requests [update] makes and what its result says about them *)

Lemma answered_app (c : client) (a b : list request) :
  forall start : nat,
    answered c start (a ++ b) <->
    answered c start a /\ answered c (start + length a) b.
Proof.
  induction a as [|r a IH]; intro start; cbn [app answered length].
  - rewrite Nat.add_0_r. tauto.
  - rewrite IH. replace (S start + length a)%nat with (start + S (length a))%nat
      by lia. tauto.
Qed.

Lemma trace_ok_other (c : client) (start : nat) (expected new : list request)
  (e : exn) :
  e <> AttributeError ->
  (exists rest, expected = new ++ rest) ->
  trace_ok c start expected new (Some e).
Proof.
  intros N [rest E]. split.
  - exists rest. split; [exact E | discriminate].
  - destruct e; try exact I. exfalso. apply N. reflexivity.
Qed.

Lemma trace_ok_stop (c : client) (start : nat) (exp1 exp2 new : list request)
  (e : exn) :
  trace_ok c start exp1 new (Some e) ->
  trace_ok c start (exp1 ++ exp2) new (Some e).
Proof.
  intros [[rest [E _]] A]. split; [|exact A].
  exists (rest ++ exp2). split; [|discriminate].
  rewrite E, app_assoc. reflexivity.
Qed.

Lemma trace_ok_app (c : client) (start : nat)
  (exp1 exp2 new1 new2 : list request) (e : option exn) :
  trace_ok c start exp1 new1 None ->
  trace_ok c (start + length new1) exp2 new2 e ->
  trace_ok c start (exp1 ++ exp2) (new1 ++ new2) e.
Proof.
  intros [[r1 [E1 N1]] A1] [[r2 [E2 N2]] A2].
  rewrite (N1 eq_refl), app_nil_r in E1. subst exp1.
  split.
  - exists r2. split; [|exact N2]. rewrite E2, app_assoc. reflexivity.
  - destruct e as [e|].
    + destruct e; try exact I.
      destruct A2 as [init [last [E [Ai Al]]]].
      exists (new1 ++ init), last. split; [|split].
      * rewrite E, app_assoc. reflexivity.
      * apply answered_app. split; assumption.
      * rewrite length_app, Nat.add_assoc. exact Al.
    + apply answered_app. split; assumption.
Qed.

Lemma answer_read (c : client) (rt : rtype) (i : nat) (a k : Z) :
  answer c i (read_request rt a k) = Some (read_registers c rt i a k).
Proof. destruct rt; reflexivity. Qed.

Lemma assign_results_no_fault (errors : option error_table)
  (rs : list register) :
  forall results : list Z,
    snd (assign_results errors rs results) <> Some AttributeError.
Proof.
  induction rs as [|[n it] rs IH]; intros [|x results]; cbn [assign_results];
    try discriminate.
  destruct (update_item errors it x) as [it' [e|]] eqn:U; cbn [snd].
  - unfold update_item in U. destruct errors as [tbl|].
    + destruct (decode tbl _ x) as [v|e'] eqn:D; [discriminate U|].
      injection U as _ <-.
      destruct (decode_raise_cases _ _ _ _ D) as [-> | ->]; discriminate.
    + injection U as _ <-. discriminate.
  - specialize (IH results).
    destruct (assign_results errors rs results) as [rs'' e']. exact IH.
Qed.

Lemma update_rtype_trace (c : client) (errors : option error_table)
  (rt : rtype) (b : block) (w : io) :
  forall (b' : block) (w' : io) (e : option exn),
    update_rtype c errors rt b w = (b', w', e) ->
    calls w' = calls w ++ list_request rt b /\
    stdout w' = stdout w /\
    trace_ok c (length (calls w)) (list_request rt b) (list_request rt b) e.
Proof.
  intros b' w' e. unfold update_rtype, list_request.
  destruct (block_get rt b) as [[|[n first] rest]|].
  - intro H. injection H as _ <- <-. rewrite app_nil_r.
    split; [reflexivity|]. split; [reflexivity|].
    apply trace_ok_other; [discriminate | exists []; reflexivity].
  - change (length ((n, first) :: rest)) with (S (length rest)).
    set (req := read_request rt (addr first - 1) (Z.of_nat (S (length rest)))).
    pose proof (answer_read c rt (length (calls w)) (addr first - 1)
                  (Z.of_nat (S (length rest)))) as An. fold req in An.
    destruct (read_registers c rt _ _ _) as [results| |msg].
    + assert (Ok : answered c (length (calls w)) [req])
        by (split; [exists results; exact An | exact I]).
      destruct (negb _ && _).
      * pose proof (assign_results_no_fault errors ((n, first) :: rest) results)
          as Nf.
        destruct (assign_results errors _ results) as [rs' e'].
        intro H. injection H as _ <- <-. cbn [snd] in Nf.
        split; [reflexivity|]. split; [reflexivity|].
        destruct e' as [e'|].
        -- apply trace_ok_other; [congruence | exists []; symmetry; apply app_nil_r].
        -- split; [exists []; split; [symmetry; apply app_nil_r | reflexivity]
                  | exact Ok].
      * intro H. injection H as _ <- <-.
        split; [reflexivity|]. split; [reflexivity|].
        split; [exists []; split; [symmetry; apply app_nil_r | reflexivity]
               | exact Ok].
    + intro H. injection H as _ <- <-.
      split; [reflexivity|]. split; [reflexivity|].
      split; [exists []; split; [symmetry; apply app_nil_r | discriminate]|].
      exists [], req. split; [reflexivity|]. split; [exact I|].
      cbn [length]. rewrite Nat.add_0_r. exact An.
    + intro H. injection H as _ <- <-.
      split; [reflexivity|]. split; [reflexivity|].
      apply trace_ok_other; [discriminate | exists []; symmetry; apply app_nil_r].
  - intro H. injection H as _ <- <-. rewrite app_nil_r.
    split; [reflexivity|]. split; [reflexivity|].
    split; [exists []; split; reflexivity | exact I].
Qed.

Lemma update_block_trace (c : client) (errors : option error_table)
  (block_cnt : Z) (b : block) (w : io) :
  forall (b' : block) (w' : io) (e : option exn),
    update_block c errors block_cnt b w = (b', w', e) ->
    exists new,
      calls w' = calls w ++ new /\ stdout w' = stdout w /\
      trace_ok c (length (calls w))
        (list_request INPUT b ++ list_request HOLDING b) new e.
Proof.
  intros b' w' e. unfold update_block.
  pose proof (update_rtype_keeps_other c errors INPUT HOLDING b
                (add_log w (Info_processing_block block_cnt)) eq_refl) as K.
  destruct (update_rtype c errors INPUT b _) as [[b1 w1] e1] eqn:U1.
  apply update_rtype_trace in U1. cbn [calls stdout add_log] in U1.
  destruct U1 as [C1 [O1 T1]]. cbn [fst] in K.
  destruct e1 as [e1|].
  - intro H. injection H as _ <- <-.
    exists (list_request INPUT b). split; [exact C1|]. split; [exact O1|].
    apply trace_ok_stop. exact T1.
  - intro U2. apply update_rtype_trace in U2. destruct U2 as [C2 [O2 T2]].
    assert (L : list_request HOLDING b1 = list_request HOLDING b)
      by (unfold list_request; rewrite K; reflexivity).
    rewrite L in C2, T2.
    exists (list_request INPUT b ++ list_request HOLDING b).
    split; [rewrite C2, C1, app_assoc; reflexivity|].
    split; [rewrite O2; exact O1|].
    apply trace_ok_app; [exact T1|].
    rewrite C1, length_app in T2. exact T2.
Qed.

Lemma update_blocks_trace (c : client) (errors : option error_table)
  (bs : list block) :
  forall (block_cnt : Z) (w : io) (bs' : list block) (w' : io) (e : option exn),
    update_blocks c errors block_cnt bs w = (bs', w', e) ->
    exists new,
      calls w' = calls w ++ new /\ stdout w' = stdout w /\
      trace_ok c (length (calls w)) (expected_requests bs) new e.
Proof.
  induction bs as [|b bs IH]; intros block_cnt w bs' w' e;
    cbn [update_blocks expected_requests flat_map].
  - intro H. injection H as _ <- <-. exists [].
    split; [symmetry; apply app_nil_r|]. split; [reflexivity|].
    split; [exists []; split; reflexivity | exact I].
  - fold (expected_requests bs).
    destruct (update_block c errors block_cnt b w) as [[b1 w1] e1] eqn:U1.
    apply update_block_trace in U1. destruct U1 as [n1 [C1 [O1 T1]]].
    destruct e1 as [e1|].
    + intro H. injection H as _ <- <-. exists n1.
      split; [exact C1|]. split; [exact O1|]. apply trace_ok_stop. exact T1.
    + destruct (update_blocks c errors (block_cnt + 1) bs w1)
        as [[bs1 w2] e2] eqn:U2.
      apply IH in U2. destruct U2 as [n2 [C2 [O2 T2]]].
      intro H. injection H as _ <- <-. exists (n1 ++ n2).
      split; [rewrite C2, C1, app_assoc; reflexivity|].
      split; [rewrite O2; exact O1|].
      apply trace_ok_app; [exact T1|].
      rewrite C1, length_app in T2. exact T2.
Qed.

Lemma update_trace (c : client) (s : session) (R : registers) (w : io)
  (bs : list block) :
  get_registers s R = ok bs ->
  exists (e : option exn) (new : list request),
    fst (fst (update c s R w))
      = match e with
        | None => ok true
        | Some AttributeError => ok false
        | Some x => raise x
        end /\
    calls (snd (update c s R w)) = calls w ++ new /\
    stdout (snd (update c s R w)) = stdout w /\
    trace_ok c (length (calls w)) (expected_requests bs) new e.
Proof.
  unfold get_registers, update.
  destruct (dict_get (_unit s) R) as [fam|]; [|discriminate].
  destruct (BLOCKS fam) as [bs0|]; [|discriminate].
  intro H. injection H as ->.
  destruct (update_blocks c (ERRORS fam) 1 bs w) as [[bs' w'] e] eqn:U.
  apply update_blocks_trace in U. destruct U as [new [C [O T]]].
  exists e, new. destruct e as [[]|]; cbn [fst snd calls stdout add_log];
    repeat split; try assumption; apply T.
Qed.

(** X7: the requests of one [update] are reads only, and they are the
    leading part of the list the catalogue calls for: one ranged read per
    register list, at the first register's address minus one and with the
    list's length as count, blocks in order and INPUT before HOLDING. When
    [update] returns [True] it has made all of them. Nothing is printed. *)
Theorem update_requests :
  forall (c : client) (s : session) (R : registers) (w : io) (bs : list block),
    get_registers s R = ok bs ->
    exists new rest,
      calls (snd (update c s R w)) = calls w ++ new /\
      expected_requests bs = new ++ rest /\
      (fst (fst (update c s R w)) = ok true -> rest = []) /\
      stdout (snd (update c s R w)) = stdout w.
Proof.
  intros c s R w bs G.
  destruct (update_trace c s R w bs G) as [e [new [Hr [C [O [[rest [E N]] _]]]]]].
  exists new, rest. split; [exact C|]. split; [exact E|]. split; [|exact O].
  intro T. apply N. rewrite T in Hr.
  destruct e as [[]|]; [discriminate Hr ..|reflexivity].
Qed.

Lemma update_requests_witness :
  expected_requests LWZ_BLOCKS
    = [ ReadInput 0 33; ReadHolding 1000 27; ReadInput 2000 5;
        ReadInput 3000 32; ReadHolding 4000 3; ReadInput 5000 2 ] /\
  exists new rest,
    calls (snd (update (failing_client (fun a => a) 2) LWZ_session REGISTERS io0))
      = calls io0 ++ new /\
    expected_requests LWZ_BLOCKS = new ++ rest /\
    (fst (fst (update (failing_client (fun a => a) 2) LWZ_session REGISTERS io0))
       = ok true -> rest = []) /\
    stdout (snd (update (failing_client (fun a => a) 2) LWZ_session REGISTERS io0))
      = stdout io0.
Proof.
  split; [vm_compute; reflexivity|].
  exact (update_requests (failing_client (fun a => a) 2) LWZ_session REGISTERS
           io0 LWZ_BLOCKS eq_refl).
Defined.

(** X8: the result of [update] tells how the client answered. [True]
    means every request of the call was answered with a register list
    (of whatever length); [False] means the last request of the call, and
    only that one, was answered without registers. *)
Theorem update_result_reports_answers :
  forall (c : client) (s : session) (R : registers) (w : io) (bs : list block),
    get_registers s R = ok bs ->
    (fst (fst (update c s R w)) = ok true ->
     exists new,
       calls (snd (update c s R w)) = calls w ++ new /\
       answered c (length (calls w)) new) /\
    (fst (fst (update c s R w)) = ok false ->
     exists init last,
       calls (snd (update c s R w)) = calls w ++ init ++ [last] /\
       answered c (length (calls w)) init /\
       answer c (length (calls w) + length init) last = Some ErrorResponse).
Proof.
  intros c s R w bs G.
  destruct (update_trace c s R w bs G) as [e [new [Hr [C [_ [_ A]]]]]].
  split; intro T; rewrite T in Hr.
  - destruct e as [[]|]; try discriminate Hr. exists new. split; assumption.
  - destruct e as [[]|]; try discriminate Hr.
    destruct A as [init [last [E [Ai Al]]]].
    exists init, last. rewrite <- E. repeat split; assumption.
Qed.

Lemma update_result_reports_answers_witness :
  fst (fst (update (failing_client (fun a => a) 2) LWZ_session REGISTERS io0))
    = ok false /\
  exists init last,
    calls (snd (update (failing_client (fun a => a) 2) LWZ_session REGISTERS io0))
      = calls io0 ++ init ++ [last] /\
    answered (failing_client (fun a => a) 2) (length (calls io0)) init /\
    answer (failing_client (fun a => a) 2) (length (calls io0) + length init) last
      = Some ErrorResponse.
Proof.
  assert (F : fst (fst (update (failing_client (fun a => a) 2) LWZ_session
                          REGISTERS io0)) = ok false)
    by (vm_compute; reflexivity).
  split; [exact F|].
  exact (proj2 (update_result_reports_answers (failing_client (fun a => a) 2)
                  LWZ_session REGISTERS io0 LWZ_BLOCKS eq_refl) F).
Defined.

(** ** What a full read stores *)

Lemma decode_ext (errors : error_table) (it1 it2 : item) (raw : Z) :
  type it1 = type it2 -> code it1 = code it2 ->
  decode errors it1 raw = decode errors it2 raw.
Proof. intros T C. unfold decode. rewrite T, C. reflexivity. Qed.

(** X9: after a read of the right length that is decoded to the end,
    the list has the same names in the same order, every register holds
    the word read at its index as raw value, and its value is the decoding
    of exactly that word. *)
Theorem full_read_stores_words_and_decodings :
  forall (tbl : error_table) (rs rs' : list register) (results : list Z),
    length results = length rs ->
    assign_results (Some tbl) rs results = (rs', None) ->
    map fst rs' = map fst rs /\
    map (fun r => value_raw (snd r)) rs' = map Some results /\
    Forall2 (fun r raw => exists v, value (snd r) = Some v /\
                                    decode tbl (snd r) raw = ok v)
      rs' results.
Proof.
  intros tbl rs. induction rs as [|[n it] rs IH]; intros rs' [|x results] L A;
    try discriminate L; cbn [assign_results] in A.
  - injection A as <-. repeat split. constructor.
  - unfold update_item in A.
    destruct (decode tbl (set_value_raw it x) x) as [v|e] eqn:D;
      [|discriminate A].
    destruct (assign_results (Some tbl) rs results) as [rs'' e'] eqn:A'.
    injection A as <- ->.
    cbn [length] in L. injection L as L.
    destruct (IH rs'' results L A') as [N [Rw F]].
    cbn [map fst snd value_raw set_value]. rewrite N, Rw.
    split; [reflexivity|]. split; [reflexivity|].
    constructor; [|exact F].
    exists v. split; [reflexivity|].
    transitivity (decode tbl (set_value_raw it x) x);
      [apply decode_ext; reflexivity | exact D].
Qed.

Lemma full_read_stores_words_and_decodings_witness :
  exists rs',
    assign_results (Some LWZ_ERRORS)
      [ reg "EM_SGREADY_OPERATING_MODE" 5001 6 None
          (Some [("REDUCED", 1); ("STANDARD", 2); ("INCREASED", 3); ("MAXIMIZED", 4)]);
        reg "LOW_PRESSURE" 30 7 (Some "bar") None ] [3; -60] = (rs', None) /\
    map (fun r => (value_raw (snd r), value (snd r))) rs'
      = [ (Some 3, Some (VList ["INCREASED"]));
          (Some (-60), Some (VStr "SENSOR_LEAD_MISSING")) ] /\
    map (fun r => value_raw (snd r)) rs' = map Some [3; -60].
Proof.
  eexists. split; [vm_compute; reflexivity|]. split; [reflexivity|].
  refine (proj1 (proj2 (full_read_stores_words_and_decodings LWZ_ERRORS
            [ reg "EM_SGREADY_OPERATING_MODE" 5001 6 None
                (Some [("REDUCED", 1); ("STANDARD", 2); ("INCREASED", 3);
                       ("MAXIMIZED", 4)]);
              reg "LOW_PRESSURE" 30 7 (Some "bar") None ]
            _ [3; -60] eq_refl _))).
  vm_compute. reflexivity.
Defined.

Lemma spec_of_eq_update (it1 it2 : item) (raw : Z) (v : pyval) :
  spec_of it1 = spec_of it2 ->
  set_value (set_value_raw it1 raw) v = set_value (set_value_raw it2 raw) v.
Proof.
  intro E. unfold spec_of in E. injection E as A T U C.
  unfold set_value, set_value_raw. cbn. rewrite A, T, U, C. reflexivity.
Qed.

Lemma specs_of_list_cons_inv (n1 n2 : string) (it1 it2 : item)
  (rs1 rs2 : list register) :
  specs_of_list ((n1, it1) :: rs1) = specs_of_list ((n2, it2) :: rs2) ->
  n1 = n2 /\ type it1 = type it2 /\ code it1 = code it2 /\
  spec_of it1 = spec_of it2 /\ specs_of_list rs1 = specs_of_list rs2.
Proof.
  unfold specs_of_list, spec_of. cbn [map fst snd].
  intro S. injection S as Hn A T U C S.
  repeat split; try assumption. rewrite A, T, U, C. reflexivity.
Qed.

(** X10: a read of the right length that is decoded to the end leaves
    no trace of what the list held before: two lists with the same
    catalogue entries, whatever values they carried, are equal after it. *)
Theorem full_read_overwrites :
  forall (tbl : error_table) (results : list Z)
         (rs1 rs2 rs' : list register),
    specs_of_list rs1 = specs_of_list rs2 ->
    length results = length rs1 ->
    assign_results (Some tbl) rs1 results = (rs', None) ->
    assign_results (Some tbl) rs2 results = (rs', None).
Proof.
  intros tbl results rs1. revert results.
  induction rs1 as [|[n1 it1] rs1 IH]; intros [|x results] [|[n2 it2] rs2] rs' S L A;
    try discriminate L; try discriminate S; cbn [assign_results] in A |- *.
  - exact A.
  - apply specs_of_list_cons_inv in S. destruct S as [Hn [T [C [Hs S]]]].
    unfold update_item in A |- *.
    rewrite <- (decode_ext tbl (set_value_raw it1 x) (set_value_raw it2 x) x T C).
    destruct (decode tbl (set_value_raw it1 x) x) as [v|e]; [|discriminate A].
    destruct (assign_results (Some tbl) rs1 results) as [rs'' e'] eqn:A1.
    injection A as <- ->.
    cbn [length] in L. injection L as L.
    rewrite (IH results rs2 rs'' S L A1).
    rewrite Hn, (spec_of_eq_update it1 it2 x v Hs). reflexivity.
Qed.

Lemma full_read_overwrites_witness :
  assign_results (Some LWZ_ERRORS)
    [ ("FLOW_RATE",
       {| addr := 15; type := 2; unit_label := Some "l/min"; code := None;
          value_raw := Some 7; value := Some (VStr "SHORTCUT") |}) ] [15]
  = ([ ("FLOW_RATE",
        {| addr := 15; type := 2; unit_label := Some "l/min"; code := None;
           value_raw := Some 15; value := Some (VFloat 1.5) |}) ], None).
Proof.
  apply (full_read_overwrites LWZ_ERRORS [15]
           [ reg "FLOW_RATE" 15 2 (Some "l/min") None ]);
    [reflexivity | reflexivity | vm_compute; reflexivity].
Defined.

(** ** The kinds of decoded values *)

Lemma scale_gives_float (result : pyval) (k : float) (v : pyval) :
  (p <- py_mul_float result k ;; py_round_ndigits p 1) = ok v ->
  exists f, v = VFloat f.
Proof.
  unfold ok.
  assert (Rd : forall f, (r <- PyFloat.round_ndigits f 1 ;; ok (VFloat r)) = inl v ->
                         exists g, v = VFloat g).
  { intro f. destruct (PyFloat.round_ndigits f 1) as [r|e]; [|discriminate].
    intro H. injection H as <-. exists r. reflexivity. }
  destruct result as [z|f|s|l]; try discriminate.
  - cbn [py_mul_float]. destruct (PyFloat.of_int z) as [f|e]; [|discriminate].
    apply Rd.
  - apply Rd.
Qed.

Lemma scan_code_incl (result : pyval) (K : list string) (cm : code_map) :
  forall coded l : list string,
    scan_code result cm coded = ok l ->
    incl coded K -> incl (map fst cm) K -> incl l K.
Proof.
  unfold ok.
  induction cm as [|[c m] cm IH]; intros coded l; cbn [scan_code map fst].
  - intros H Ic _. injection H as <-. exact Ic.
  - intros H Ic Ik.
    assert (Hc : In c K) by (apply Ik; left; reflexivity).
    assert (Ik' : incl (map fst cm) K) by (intros x I; apply Ik; right; exact I).
    destruct (py_eq result (VInt m)).
    + injection H as <-. intros x [<-|[]]. exact Hc.
    + destruct (py_and_true result m) as [b|e]; [|discriminate H].
      cbn [bind] in H. apply (IH _ _ H); [|exact Ik'].
      destruct b; [|exact Ic].
      intros x I. apply in_app_or in I. destruct I as [I|[<-|[]]];
        [apply Ic; exact I | exact Hc].
Qed.

(** X11: what kind of value a successful decoding stores. A sentinel word
    gives the sentinel's name, and a string is stored for a sentinel only;
    otherwise a register with a code map gets a list of labels all taken
    from its map, a register of type 2 or 7 a float, and any other register
    the raw word itself. *)
Theorem decoded_value_kinds :
  forall (errors : error_table) (it : item) (raw : Z) (v : pyval),
    decode errors it raw = ok v ->
    match sentinel_name errors raw with
    | Some name => v = VStr name
    | None =>
        (forall s, v <> VStr s) /\
        match code it with
        | Some cm => exists l, v = VList l /\ incl l (map fst cm)
        | None =>
            if (type it =? 2) || (type it =? 7)
            then exists f, v = VFloat f
            else v = VInt raw
        end
    end.
Proof.
  intros errors it raw v. unfold decode. rewrite scan_errors_spec.
  destruct (sentinel_name errors raw) as [name|].
  - intro H. injection H as <-. reflexivity.
  - assert (Fin : forall result,
               (forall s, result <> VStr s) ->
               match code it with
               | Some cm => coded <- scan_code result cm [] ;; ok (VList coded)
               | None => ok result
               end = ok v ->
               (forall s, v <> VStr s) /\
               match code it with
               | Some cm => exists l, v = VList l /\ incl l (map fst cm)
               | None => v = result
               end).
    { intros result Ns. destruct (code it) as [cm|].
      - destruct (scan_code result cm []) as [l|e] eqn:S; [|discriminate].
        intro H. injection H as <-. split; [discriminate|].
        exists l. split; [reflexivity|].
        apply (scan_code_incl result (map fst cm) cm [] l S);
          [intros x [] | apply incl_refl].
      - intro H. injection H as <-. split; [exact Ns | reflexivity]. }
    destruct (type it =? 2) eqn:T2.
    + destruct (p <- py_mul_float (VInt raw) 0.1 ;; py_round_ndigits p 1)
        as [r1|e1] eqn:S1; [|discriminate].
      destruct (scale_gives_float _ _ _ S1) as [f1 ->]. cbn [bind orb].
      destruct (type it =? 7).
      * destruct (p <- py_mul_float (VFloat f1) 0.01 ;; py_round_ndigits p 1)
          as [r2|e2] eqn:S2; [|discriminate].
        destruct (scale_gives_float _ _ _ S2) as [f2 ->]. cbn [bind].
        intro H. apply Fin in H; [|discriminate]. destruct H as [Ns H].
        split; [exact Ns|]. destruct (code it); [exact H|].
        exists f2. exact H.
      * cbn [bind ok]. intro H. apply Fin in H; [|discriminate].
        destruct H as [Ns H]. split; [exact Ns|].
        destruct (code it); [exact H|]. exists f1. exact H.
    + cbn [bind ok orb]. destruct (type it =? 7).
      * destruct (p <- py_mul_float (VInt raw) 0.01 ;; py_round_ndigits p 1)
          as [r2|e2] eqn:S2; [|discriminate].
        destruct (scale_gives_float _ _ _ S2) as [f2 ->]. cbn [bind].
        intro H. apply Fin in H; [|discriminate]. destruct H as [Ns H].
        split; [exact Ns|]. destruct (code it); [exact H|].
        exists f2. exact H.
      * cbn [bind ok]. intro H. apply Fin in H; [|discriminate]. exact H.
Qed.

Lemma decoded_value_kinds_witness :
  decode LWZ_ERRORS (snd (reg "RESTART_ISG" 1027 6 None
                            (Some [("OFF", 0); ("RESET", 1); ("MENU", 2)]))) 3
    = ok (VList ["RESET"; "MENU"]) /\
  (forall s, VList ["RESET"; "MENU"] <> VStr s) /\
  exists l, VList ["RESET"; "MENU"] = VList l /\
            incl l (map fst [("OFF", 0); ("RESET", 1); ("MENU", 2)]).
Proof.
  split; [vm_compute; reflexivity|].
  exact (decoded_value_kinds LWZ_ERRORS
           (snd (reg "RESTART_ISG" 1027 6 None
                   (Some [("OFF", 0); ("RESET", 1); ("MENU", 2)]))) 3
           (VList ["RESET"; "MENU"]) eq_refl).
Defined.

(** X12: a code map works on the integer data types only. On a register
    of type 2 or 7 the scaled value is a float, and a decoding that
    succeeds can only have matched the first entry of the map: whenever
    the value differs from it the bitwise test raises [TypeError]. *)
Theorem code_map_on_scaled_register :
  forall (errors : error_table) (it : item) (c : string) (m : Z)
         (cm : code_map) (raw : Z) (v : pyval),
    type it = 2 \/ type it = 7 ->
    code it = Some ((c, m) :: cm) ->
    sentinel_name errors raw = None ->
    decode errors it raw = ok v ->
    v = VList [c].
Proof.
  intros errors it c m cm raw v T C S. unfold decode.
  rewrite scan_errors_spec, S, C.
  assert (Fl : forall f, (coded <- scan_code (VFloat f) ((c, m) :: cm) [] ;;
                          ok (VList coded)) = ok v -> v = VList [c]).
  { intro f. cbn [scan_code]. destruct (py_eq (VFloat f) (VInt m)).
    - intro H. injection H as <-. reflexivity.
    - discriminate. }
  destruct T as [T|T]; rewrite T; cbn [Z.eqb Pos.eqb bind ok].
  - destruct (p <- py_mul_float (VInt raw) 0.1 ;; py_round_ndigits p 1)
      as [r1|e1] eqn:S1; [|discriminate].
    destruct (scale_gives_float _ _ _ S1) as [f1 ->]. cbn [bind]. apply Fl.
  - destruct (p <- py_mul_float (VInt raw) 0.01 ;; py_round_ndigits p 1)
      as [r1|e1] eqn:S1; [|discriminate].
    destruct (scale_gives_float _ _ _ S1) as [f1 ->]. cbn [bind]. apply Fl.
Qed.

Lemma code_map_on_scaled_register_witness :
  decode LWZ_ERRORS (snd (reg "FLAGS" 1 2 None (Some [("A", 1); ("B", 2)]))) 10
    = ok (VList ["A"]) /\
  decode LWZ_ERRORS (snd (reg "FLAGS" 1 2 None (Some [("A", 1); ("B", 2)]))) 20
    = raise TypeError.
Proof.
  split; [|vm_compute; reflexivity].
  assert (D : exists v, decode LWZ_ERRORS
                (snd (reg "FLAGS" 1 2 None (Some [("A", 1); ("B", 2)]))) 10 = ok v)
    by (eexists; vm_compute; reflexivity).
  destruct D as [v D]. rewrite D. f_equal.
  apply (code_map_on_scaled_register LWZ_ERRORS
           (snd (reg "FLAGS" 1 2 None (Some [("A", 1); ("B", 2)])))
           "A" 1 [("B", 2)] 10 v);
    [left; reflexivity | reflexivity | reflexivity | exact D].
Defined.

(** ** Round trips through the codec *)

Lemma encode_ext (it1 it2 : item) (v : pyval) :
  type it1 = type it2 -> encode it1 v = encode it2 v.
Proof. intro T. unfold encode. rewrite T. reflexivity. Qed.

Lemma decode_without_sentinel (errors : error_table) (it : item) (raw : Z) :
  sentinel_name errors raw = None ->
  decode errors it raw = decode [] it raw.
Proof.
  intro S. unfold decode. rewrite !scan_errors_spec, S. reflexivity.
Qed.

(** X13: on a register of an integer data type (any but 2 and 7) without
    a code map, a word that is no sentinel is stored unchanged, and
    writing the stored value sends that same word. *)
Theorem integer_round_trip :
  forall (errors : error_table) (it : item) (raw : Z),
    type it <> 2 -> type it <> 7 -> code it = None ->
    sentinel_name errors raw = None ->
    exists v, decode errors it raw = ok v /\ encode it v = ok (VInt raw).
Proof.
  intros errors it raw T2 T7 C S. exists (VInt raw).
  split; [apply decode_integer_types; assumption|].
  unfold encode. apply Z.eqb_neq in T2. apply Z.eqb_neq in T7.
  rewrite T2. cbn [bind ok]. rewrite T7. reflexivity.
Qed.

Lemma integer_round_trip_witness :
  exists v, decode LWZ_ERRORS (snd (reg "MWM_SET_DAY" 1015 6 (Some "l") None)) 120
              = ok v /\
            encode (snd (reg "MWM_SET_DAY" 1015 6 (Some "l") None)) v
              = ok (VInt 120).
Proof.
  apply (integer_round_trip LWZ_ERRORS
           (snd (reg "MWM_SET_DAY" 1015 6 (Some "l") None)) 120);
    [discriminate | discriminate | reflexivity | reflexivity].
Defined.

Lemma all_from_spec (P : Z -> bool) (n : nat) :
  forall lo : Z,
    all_from P lo n = true ->
    forall z, lo <= z < lo + Z.of_nat n -> P z = true.
Proof.
  induction n as [|n IH]; intros lo H z B; [lia|].
  cbn [all_from] in H. destruct (P lo) eqn:E; [|discriminate H].
  destruct (Z.eq_dec z lo) as [->|N]; [exact E|].
  apply (IH (lo + 1) H). lia.
Qed.

(** X14: for every word from -1000 to 1000 (-100.0 to 100.0 in tenths)
    that is no sentinel, a type-2 register without code map decodes it to
    a float, and encoding that float for writing gives the word back. *)
Theorem type2_round_trip_in_range :
  forall (errors : error_table) (it : item) (r : Z),
    type it = 2 -> code it = None ->
    sentinel_name errors r = None ->
    -1000 <= r <= 1000 ->
    exists f, decode errors it r = ok (VFloat f) /\
              encode it (VFloat f) = ok (VInt r).
Proof.
  intros errors it r T C S B.
  assert (A : all_from type2_round_trip (-1000) 2001 = true)
    by (vm_compute; reflexivity).
  pose proof (all_from_spec _ _ _ A r ltac:(lia)) as H.
  unfold type2_round_trip in H.
  rewrite (decode_without_sentinel errors it r S).
  rewrite (decode_ext [] it (snd (reg "" 0 2 None None)) r T C).
  destruct (decode [] (snd (reg "" 0 2 None None)) r) as [[z|f|s|l]|e];
    try discriminate H.
  exists f. split; [reflexivity|].
  rewrite (encode_ext it (snd (reg "" 0 2 None None)) (VFloat f) T).
  destruct (encode (snd (reg "" 0 2 None None)) (VFloat f)) as [[z|g|s|l]|e];
    try discriminate H.
  apply Z.eqb_eq in H. subst z. reflexivity.
Qed.

Lemma type2_round_trip_in_range_witness :
  exists f, decode LWZ_ERRORS
              (snd (reg "ROOM_TEMP_COOL_DAY_HC1" 1022 2 (Some "°C") None)) 225
              = ok (VFloat f) /\
            encode (snd (reg "ROOM_TEMP_COOL_DAY_HC1" 1022 2 (Some "°C") None))
              (VFloat f) = ok (VInt 225).
Proof.
  apply (type2_round_trip_in_range LWZ_ERRORS
           (snd (reg "ROOM_TEMP_COOL_DAY_HC1" 1022 2 (Some "°C") None)) 225);
    [reflexivity | reflexivity | reflexivity | lia].
Defined.

(** ** Construction *)

Lemma dict_get_keys {V : Type} (k : string) (d : list (string * V)) :
  existsb (fun kv => String.eqb (fst kv) k) d = true <-> dict_get k d <> None.
Proof.
  induction d as [|[k' v] d IH]; cbn [existsb dict_get fst].
  - split; [discriminate | intro H; exfalso; apply H; reflexivity].
  - destruct (String.eqb k' k); cbn [orb]; [|exact IH].
    split; [discriminate | reflexivity].
Qed.

(** X15: the check in [__init__] is the guard of every later
    [REGISTERS[self._unit]]: a session is constructed exactly for a unit
    the table has an entry for, it carries that unit, and on it
    [get_registers] can fail only for a missing ['BLOCKS'] key; for any
    other unit construction raises an exception. *)
Theorem init_guards_unit_lookup :
  forall (R : registers) (unit : string) (b : bool),
    match dict_get unit R with
    | Some fam =>
        exists s, __init__ R unit b = ok s /\ _unit s = unit /\ _slave s = 1 /\
                  get_registers s R = match BLOCKS fam with
                                      | Some bs => ok bs
                                      | None => raise (KeyError "BLOCKS")
                                      end
    | None => exists msg, __init__ R unit b = raise (Exception msg)
    end.
Proof.
  intros R unit b. unfold __init__.
  pose proof (dict_get_keys unit R) as K.
  destruct (dict_get unit R) as [fam|] eqn:G.
  - replace (existsb (fun kv => String.eqb (fst kv) unit) R) with true
      by (symmetry; apply K; discriminate).
    eexists. split; [reflexivity|]. split; [reflexivity|]. split; [reflexivity|].
    unfold get_registers. cbn [_unit]. rewrite G. reflexivity.
  - destruct (existsb (fun kv => String.eqb (fst kv) unit) R).
    + exfalso. apply (proj1 K); reflexivity.
    + eexists. reflexivity.
Qed.

(** ** [get_register_value_formatted] *)



(** ** The example driver *)

Lemma example_lines_all (str_of : pyval -> string) (rs : list register) :
  forall out : list string,
    Forall (fun r => value (snd r) <> None) rs ->
    exists lines,
      example_lines str_of rs out = (out ++ lines, None) /\
      length lines = length rs.
Proof.
  induction rs as [|r rs IH]; intros out F; cbn [example_lines].
  - exists []. rewrite app_nil_r. split; reflexivity.
  - inversion F as [|x l Hv Hr]; subst.
    unfold example_line at 1.
    destruct (value (snd r)) as [v|]; [|exfalso; apply Hv; reflexivity].
    cbn [ok].
    destruct (IH (out ++
                [(fst r ++ ": " ++
                  py_str str_of
                    match value_raw (snd r) with
                    | Some raw =>
                        VStr (py_str str_of
                                match unit_label (snd r) with
                                | Some u =>
                                    if String.eqb u ""
                                    then v
                                    else VStr (py_str str_of v ++ " " ++ u)%string
                                | None => v
                                end ++ " (RAW " ++ py_str str_of (VInt raw) ++ ")")%string
                    | None =>
                        match unit_label (snd r) with
                        | Some u =>
                            if String.eqb u ""
                            then v
                            else VStr (py_str str_of v ++ " " ++ u)%string
                        | None => v
                        end
                    end)%string]) Hr) as [lines [E L]].
    eexists (_ :: lines). rewrite E, <- app_assoc. cbn [app length].
    split; [reflexivity | rewrite L; reflexivity].
Qed.

Lemma example_lines_missing (str_of : pyval -> string) (rs : list register) :
  forall out : list string,
    Exists (fun r => value (snd r) = None) rs ->
    exists out', example_lines str_of rs out = (out', Some (KeyError "value")).
Proof.
  induction rs as [|r rs IH]; intros out E; [inversion E|].
  cbn [example_lines]. unfold example_line at 1.
  destruct (value (snd r)) as [v|] eqn:V.
  - cbn [ok]. apply IH. inversion E as [x l H|x l H]; subst; [|exact H].
    rewrite V in H. discriminate H.
  - exists out. reflexivity.
Qed.

Lemma dict_get_set_same {V : Type} (k : string) (v : V) (d : list (string * V)) :
  dict_get k (dict_set k v d) = Some v.
Proof.
  induction d as [|[k' v'] d IH]; cbn [dict_set dict_get].
  - rewrite String.eqb_refl. reflexivity.
  - destruct (String.eqb k' k) eqn:E; cbn [dict_get].
    + rewrite String.eqb_refl. reflexivity.
    + rewrite E. exact IH.
Qed.

(** After an [update] that raised nothing, the catalogue it leaves has
    blocks for the session's unit. *)
Lemma update_leaves_blocks (c : client) (s : session) (R : registers) (w : io)
  (r : bool) :
  fst (fst (update c s R w)) = ok r ->
  exists bs', get_registers s (snd (fst (update c s R w))) = ok bs' /\
              dict_get (_unit s) R <> None.
Proof.
  unfold update.
  destruct (dict_get (_unit s) R) as [fam|] eqn:G; [|discriminate].
  destruct (BLOCKS fam) as [bs|]; [|discriminate].
  destruct (update_blocks c (ERRORS fam) 1 bs w) as [[bs' w'] e].
  intro H. exists bs'. split; [|discriminate].
  assert (E : get_registers s (set_blocks R (_unit s) bs') = ok bs').
  { unfold get_registers, set_blocks. rewrite G, dict_get_set_same. reflexivity. }
  destruct e as [[]|]; try discriminate H; exact E.
Qed.

Lemma example_main_cases :
  forall (str_of : pyval -> string) (c : client) (R : registers) (r : bool)
         (bs' : list block),
    fst (fst (update c LWZ_session R io0)) = ok r ->
    get_registers LWZ_session (snd (fst (update c LWZ_session R io0))) = ok bs' ->
    (Forall (fun x => value (snd x) <> None) (walk bs') ->
     fst (fst (fst (main str_of c R))) = ok tt /\
     length (snd (fst (fst (main str_of c R)))) = length (walk bs')) /\
    (Exists (fun x => value (snd x) = None) (walk bs') ->
     fst (fst (fst (main str_of c R))) = raise (KeyError "value")).
Proof.
  intros str_of c R r bs' U G.
  destruct (update_leaves_blocks c LWZ_session R io0 r U) as [_ [_ D]].
  unfold main, __init__, UNIT.
  replace (existsb (fun kv => String.eqb (fst kv) "LWZ") R) with true
    by (symmetry; apply dict_get_keys; exact D).
  cbn [ok]. fold LWZ_session.
  destruct (update c LWZ_session R io0) as [[res R'] w'].
  cbn [fst snd] in U, G. rewrite U. cbn [ok]. rewrite G. cbn [ok].
  split.
  - intro F. destruct (example_lines_all str_of (walk bs') [] F) as [lines [E L]].
    rewrite E. cbn [fst snd app]. split; [reflexivity | exact L].
  - intro E. destruct (example_lines_missing str_of (walk bs') [] E) as [out' X].
    rewrite X. reflexivity.
Qed.

(** X17: what the example driver does after an [update] that returned:
    it walks the registers in catalogue order; if each of them holds a
    value it prints one line per register and ends normally, and if any
    lacks one it stops with [KeyError('value')]. *)
Theorem example_main_outcome :
  forall (str_of : pyval -> string) (c : client) (R : registers) (r : bool)
         (bs' : list block),
    fst (fst (update c LWZ_session R io0)) = ok r ->
    get_registers LWZ_session (snd (fst (update c LWZ_session R io0))) = ok bs' ->
    (Forall (fun x => value (snd x) <> None) (walk bs') ->
     fst (fst (fst (main str_of c R))) = ok tt /\
     length (snd (fst (fst (main str_of c R)))) = length (walk bs')) /\
    (Exists (fun x => value (snd x) = None) (walk bs') ->
     fst (fst (fst (main str_of c R))) = raise (KeyError "value")).
Proof. exact example_main_cases. Qed.

Lemma example_main_outcome_witness :
  fst (fst (fst (main str_stub (device_client (fun a => a)) SMALL_REGISTERS)))
    = ok tt /\
  snd (fst (fst (main str_stub (device_client (fun a => a)) SMALL_REGISTERS)))
    = [ "EM_SGREADY_SWITCH: <list> (RAW 4001)";
        "EM_SGREADY_INPUT_1: <list> (RAW 4002)";
        "EM_SGREADY_INPUT_2: <list> (RAW 4003)" ]%string.
Proof.
  pose (bs' := match get_registers LWZ_session
                        (snd (fst (update (device_client (fun a => a))
                                     LWZ_session SMALL_REGISTERS io0))) with
               | inl bs => bs
               | inr _ => []
               end).
  assert (F : Forall (fun x => value (snd x) <> None) (walk bs')).
  { vm_compute. repeat constructor; discriminate. }
  split; [|vm_compute; reflexivity].
  exact (proj1 (proj1 (example_main_outcome str_stub (device_client (fun a => a))
                         SMALL_REGISTERS true bs'
                         ltac:(vm_compute; reflexivity)
                         ltac:(vm_compute; reflexivity)) F)).
Defined.

Lemma update_rtype_fault_inv (c : client) (errors : option error_table)
  (rt : rtype) (b b' : block) (w w' : io) :
  update_rtype c errors rt b w = (b', w', Some AttributeError) ->
  b' = b /\ exists r rs, block_get rt b = Some (r :: rs).
Proof.
  unfold update_rtype.
  destruct (block_get rt b) as [[|[n first] rest]|]; try discriminate.
  destruct (read_registers c rt _ _ _) as [results| |msg].
  - destruct (negb _ && _); [|discriminate].
    pose proof (assign_results_no_fault errors ((n, first) :: rest) results) as N.
    destruct (assign_results errors _ results) as [rs' e]. cbn [snd] in N.
    intro H. injection H as _ _ E. exfalso. apply N. exact E.
  - intro H. injection H as <- _. split; [reflexivity|].
    exists (n, first), rest. reflexivity.
  - discriminate.
Qed.

(** When a pass ends on a transport fault, some non-empty list of the
    catalogue is after the pass exactly as it was before. *)
Lemma faulted_pass_leaves_a_list (c : client) (errors : option error_table)
  (bs : list block) :
  forall (block_cnt : Z) (w : io) (bs' : list block) (w' : io),
    update_blocks c errors block_cnt bs w = (bs', w', Some AttributeError) ->
    exists b b' rt r rs,
      In b bs /\ In b' bs' /\
      block_get rt b = Some (r :: rs) /\ block_get rt b' = Some (r :: rs).
Proof.
  induction bs as [|b bs IH]; intros block_cnt w bs' w'; cbn [update_blocks];
    [discriminate|].
  destruct (update_block c errors block_cnt b w) as [[b1 w1] [e|]] eqn:U.
  - intro H. injection H as <- _ ->.
    unfold update_block in U.
    pose proof (update_rtype_keeps_other c errors INPUT HOLDING b
                  (add_log w (Info_processing_block block_cnt)) eq_refl) as K.
    destruct (update_rtype c errors INPUT b _) as [[b2 w2] [e|]] eqn:U1.
    + injection U as -> _ ->.
      apply update_rtype_fault_inv in U1. destruct U1 as [-> [r [rs G]]].
      exists b, b, INPUT, r, rs.
      repeat split; try (left; reflexivity); exact G.
    + cbn [fst] in K.
      apply update_rtype_fault_inv in U. destruct U as [-> [r [rs G]]].
      exists b, b2, HOLDING, r, rs.
      repeat split; try (left; reflexivity); [rewrite <- K|]; exact G.
  - destruct (update_blocks c errors (block_cnt + 1) bs w1)
      as [[bs1 w2] e2] eqn:U2.
    intro H. injection H as <- _ ->.
    apply IH in U2. destruct U2 as [b0 [b' [rt [r [rs [I [I' [G G']]]]]]]].
    exists b0, b', rt, r, rs.
    repeat split; try (right; assumption); assumption.
Qed.

Lemma map_fixed_in {A : Type} (f : A -> A) (l : list A) (x : A) :
  map f l = l -> In x l -> f x = x.
Proof.
  induction l as [|y l IH]; intros E I; [destruct I|].
  cbn [map] in E. injection E as Ey El.
  destruct I as [<-|I]; [exact Ey | apply IH; assumption].
Qed.

Lemma dict_get_in {V : Type} (k : string) (v : V) (d : list (string * V)) :
  dict_get k d = Some v -> In (k, v) d.
Proof.
  induction d as [|[k' v'] d IH]; cbn [dict_get]; [discriminate|].
  destruct (String.eqb_spec k' k) as [->|N].
  - intro H. injection H as ->. left. reflexivity.
  - intro H. right. apply IH. exact H.
Qed.

Lemma block_get_in (rt : rtype) (b : block) (rs : list register) :
  block_get rt b = Some rs -> In (rt, rs) b.
Proof.
  induction b as [|[k l] b IH]; cbn [block_get]; [discriminate|].
  destruct (rtype_eqb k rt) eqn:E.
  - apply rtype_eqb_eq in E. subst k. intro H. injection H as ->.
    left. reflexivity.
  - intro H. right. apply IH. exact H.
Qed.

(** In a catalogue that holds no values yet, no register of a list has
    one. *)
Lemma fresh_registers_hold_nothing (R : registers) (u : string) (fam : family)
  (bs : list block) (b : block) (rt : rtype) (rs : list register)
  (r : register) :
  specs_of R = R ->
  dict_get u R = Some fam -> BLOCKS fam = Some bs ->
  In b bs -> block_get rt b = Some rs -> In r rs ->
  value (snd r) = None.
Proof.
  intros F G B Ib Gb Ir.
  pose proof (map_fixed_in _ R (u, fam) F (dict_get_in u fam R G)) as E1.
  cbn [fst snd] in E1. injection E1 as E1. rewrite B in E1.
  rewrite <- E1 in B. cbn [option_map BLOCKS] in B. injection B as B.
  pose proof (map_fixed_in _ bs b B Ib) as E2.
  pose proof (map_fixed_in _ b (rt, rs) E2 (block_get_in rt b rs Gb)) as E3.
  cbn [fst snd] in E3. injection E3 as E3.
  pose proof (map_fixed_in _ rs r E3 Ir) as E4.
  rewrite <- E4. reflexivity.
Qed.

Lemma walk_in (bs : list block) (b : block) (rt : rtype) (rs : list register)
  (r : register) :
  In b bs -> block_get rt b = Some rs -> In r rs -> In r (walk bs).
Proof.
  intros Ib G Ir. unfold walk. apply in_flat_map. exists b. split; [exact Ib|].
  apply in_concat. exists rs. split; [|exact Ir].
  apply register_sets_in. exists rt. split; [|exact G].
  assert (K : existsb (rtype_eqb rt) (map fst b) = true)
    by (apply block_keys_get; rewrite G; discriminate).
  apply existsb_exists in K. destruct K as [k [I E]].
  apply rtype_eqb_eq in E. subst k. exact I.
Qed.

(** X18: run on a catalogue that holds no values yet, the example driver
    crashes with [KeyError('value')] whenever its [update] returned
    [False]: the list whose read met the fault keeps no value, and the
    driver, which ignores the result of [update], subscripts ['value'] on
    every register. *)
Theorem example_main_crashes_after_failed_update :
  forall (str_of : pyval -> string) (c : client) (R : registers),
    specs_of R = R ->
    fst (fst (update c LWZ_session R io0)) = ok false ->
    fst (fst (fst (main str_of c R))) = raise (KeyError "value").
Proof.
  intros str_of c R F U.
  destruct (update_leaves_blocks c LWZ_session R io0 false U) as [bs' [G _]].
  apply (proj2 (example_main_cases str_of c R false bs' U G)).
  unfold update in U, G.
  destruct (dict_get (_unit LWZ_session) R) as [fam|] eqn:D; [|discriminate U].
  destruct (BLOCKS fam) as [bs|] eqn:B; [|discriminate U].
  destruct (update_blocks c (ERRORS fam) 1 bs io0) as [[bs1 w1] e] eqn:P.
  destruct e as [[]|]; try discriminate U.
  cbn [fst snd] in G.
  unfold get_registers, set_blocks in G.
  rewrite D, dict_get_set_same in G. cbn [BLOCKS] in G. injection G as <-.
  apply faulted_pass_leaves_a_list in P.
  destruct P as [b [b' [rt [r [rs [Ib [Ib' [Gb Gb']]]]]]]].
  apply Exists_exists. exists r. split.
  - apply (walk_in bs1 b' rt (r :: rs) r Ib' Gb'). left. reflexivity.
  - apply (fresh_registers_hold_nothing R _ fam bs b rt (r :: rs) r F D B Ib Gb).
    left. reflexivity.
Qed.

Lemma example_main_crashes_after_failed_update_witness :
  specs_of SMALL_REGISTERS = SMALL_REGISTERS /\
  fst (fst (update (failing_client (fun a => a) 0) LWZ_session SMALL_REGISTERS io0))
    = ok false /\
  fst (fst (fst (main str_stub (failing_client (fun a => a) 0) SMALL_REGISTERS)))
    = raise (KeyError "value").
Proof.
  split; [reflexivity|]. split; [vm_compute; reflexivity|].
  apply (example_main_crashes_after_failed_update str_stub
           (failing_client (fun a => a) 0) SMALL_REGISTERS);
    [reflexivity | vm_compute; reflexivity].
Defined.

(** The shipped table holds no values. *)
Lemma REGISTERS_hold_nothing : specs_of REGISTERS = REGISTERS.
Proof. vm_compute. reflexivity. Qed.

(** ** Malformed tables *)

Section EdgeCalls.

Variables (c : client) (s : session) (R : registers) (w : io) (fam : family).
Variables (pre post : list block) (rt : rtype).
Variables (pre' : list block) (w1 : io).

Hypothesis unit_tables : dict_get (_unit s) R = Some fam.
Hypothesis earlier_blocks :
  update_blocks c (ERRORS fam) 1 pre w = (pre', w1, None).

(** X19: a block whose register list is empty makes [update] raise
    [IndexError] when it takes the first register's address: no request
    is made for that list, the later blocks are not visited, the blocks
    before keep their new values, and the error is not turned into
    [False]. *)
Theorem empty_list_raises_IndexError :
  BLOCKS fam = Some (pre ++ [(rt, [])] :: post) ->
  update c s R w =
    (raise IndexError,
     set_blocks R (_unit s) (pre' ++ [(rt, [])] :: post),
     add_log w1 (Info_processing_block (1 + Z.of_nat (length pre)))).
Proof.
  intro B. unfold update. rewrite unit_tables, B.
  rewrite update_blocks_app, earlier_blocks. cbn [update_blocks].
  replace (update_block c (ERRORS fam) (1 + Z.of_nat (length pre)) [(rt, [])] w1)
    with ([(rt, @nil register)],
          add_log w1 (Info_processing_block (1 + Z.of_nat (length pre))),
          Some IndexError)
    by (destruct rt; reflexivity).
  reflexivity.
Qed.

(** X20: on a unit whose table has blocks but no ['ERRORS'] key, the
    first word of the first full read is stored as raw value and then
    [update] raises [KeyError('ERRORS')]: that register keeps the value it
    had, nothing after it is touched, and the error is not turned into
    [False]. *)
Theorem missing_errors_raises_KeyError :
  forall (name : string) (first : item) (rest : list register)
         (x : Z) (xs : list Z),
    ERRORS fam = None ->
    BLOCKS fam = Some (pre ++ [(rt, (name, first) :: rest)] :: post) ->
    read_registers c rt (length (calls w1)) (addr first - 1)
      (Z.of_nat (length ((name, first) :: rest))) = Registers (x :: xs) ->
    length (x :: xs) = length ((name, first) :: rest) ->
    update c s R w =
      (raise (KeyError "ERRORS"),
       set_blocks R (_unit s)
         (pre' ++ [(rt, (name, set_value_raw first x) :: rest)] :: post),
       add_call (add_log w1 (Info_processing_block (1 + Z.of_nat (length pre))))
         (read_request rt (addr first - 1)
            (Z.of_nat (length ((name, first) :: rest))))).
Proof.
  intros name first rest x xs E B Rd L.
  unfold update. rewrite unit_tables, B.
  rewrite update_blocks_app, earlier_blocks. cbn [update_blocks].
  rewrite (update_block_one_list c (ERRORS fam) rt name first rest _ w1).
  assert (U : update_rtype c (ERRORS fam) rt [(rt, (name, first) :: rest)]
                (add_log w1 (Info_processing_block (1 + Z.of_nat (length pre))))
              = ([(rt, (name, set_value_raw first x) :: rest)],
                 add_call (add_log w1
                             (Info_processing_block (1 + Z.of_nat (length pre))))
                   (read_request rt (addr first - 1)
                      (Z.of_nat (length ((name, first) :: rest)))),
                 Some (KeyError "ERRORS"))).
  { unfold update_rtype.
    replace (block_get rt [(rt, (name, first) :: rest)])
      with (Some ((name, first) :: rest)) by (destruct rt; reflexivity).
    cbn [calls add_log].
    match goal with
    | |- context [read_registers ?a ?b ?i ?j ?k] =>
        replace (read_registers a b i j k) with (Registers (x :: xs))
          by (symmetry; exact Rd)
    end.
    match goal with
    | |- context [Z.of_nat (length (x :: xs)) =? ?k] =>
        replace (Z.of_nat (length (x :: xs)) =? k) with true
          by (symmetry; apply Z.eqb_eq; apply f_equal; exact L)
    end.
    rewrite E.
    cbn [length Nat.eqb negb andb assign_results update_item].
    destruct rt; reflexivity. }
  match type of U with
  | _ = ?rhs =>
      match goal with
      | |- context [update_rtype ?a ?b ?i ?j ?k] =>
          replace (update_rtype a b i j k) with rhs by (symmetry; exact U)
      end
  end.
  reflexivity.
Qed.

End EdgeCalls.

Lemma empty_list_raises_IndexError_witness :
  update (device_client (fun a => a)) LWZ_session
    [ ("LWZ", {| ERRORS := Some LWZ_ERRORS;
                 BLOCKS := Some [ LWZ_block5; [ (INPUT, []) ]; LWZ_block6 ] |}) ]
    io0
  = (raise IndexError,
     set_blocks
       [ ("LWZ", {| ERRORS := Some LWZ_ERRORS;
                    BLOCKS := Some [ LWZ_block5; [ (INPUT, []) ]; LWZ_block6 ] |}) ]
       "LWZ"
       (fst (fst (update_blocks (device_client (fun a => a)) (Some LWZ_ERRORS) 1
                    [ LWZ_block5 ] io0))
        ++ [ (INPUT, []) ] :: [ LWZ_block6 ]),
     add_log
       (snd (fst (update_blocks (device_client (fun a => a)) (Some LWZ_ERRORS) 1
                    [ LWZ_block5 ] io0)))
       (Info_processing_block 2)).
Proof.
  apply (empty_list_raises_IndexError (device_client (fun a => a)) LWZ_session
           _ io0 {| ERRORS := Some LWZ_ERRORS;
                    BLOCKS := Some [ LWZ_block5; [ (INPUT, []) ]; LWZ_block6 ] |}
           [ LWZ_block5 ] [ LWZ_block6 ] INPUT);
    [reflexivity | vm_compute; reflexivity | reflexivity].
Defined.

Lemma missing_errors_raises_KeyError_witness :
  fst (fst (update (device_client (fun a => a)) LWZ_session
              [ ("LWZ", {| ERRORS := None; BLOCKS := Some [ LWZ_block6 ] |}) ] io0))
    = raise (KeyError "ERRORS") /\
  map (fun n => option_map (fun it => (value_raw it, value it))
                  (item_of (snd (fst (update (device_client (fun a => a)) LWZ_session
                                        [ ("LWZ", {| ERRORS := None;
                                                     BLOCKS := Some [ LWZ_block6 ] |}) ]
                                        io0))) n))
    [ "EM_SGREADY_OPERATING_MODE"; "CONTROLLER_ID" ]
    = [ Some (Some 5001, None); Some (None, None) ].
Proof.
  split; [|vm_compute; reflexivity].
  rewrite (missing_errors_raises_KeyError (device_client (fun a => a)) LWZ_session
             [ ("LWZ", {| ERRORS := None; BLOCKS := Some [ LWZ_block6 ] |}) ] io0
             {| ERRORS := None; BLOCKS := Some [ LWZ_block6 ] |}
             [] [] INPUT [] io0 eq_refl eq_refl
             "EM_SGREADY_OPERATING_MODE"
             (snd (reg "EM_SGREADY_OPERATING_MODE" 5001 6 None
                     (Some [("REDUCED", 1); ("STANDARD", 2); ("INCREASED", 3);
                            ("MAXIMIZED", 4)])))
             (tl (match block_get INPUT LWZ_block6 with
                  | Some rs => rs
                  | None => []
                  end))
             5001 [5002] eq_refl eq_refl eq_refl eq_refl).
  reflexivity.
Defined.

(** ** Lookup and [update] together *)

Lemma scan_register_set_specs (name : string) (rs : list register)
  (found : option register) :
  scan_register_set name (specs_of_list rs)
    (option_map (fun x => (fst x, spec_of (snd x))) found)
  = option_map (fun x => (fst x, spec_of (snd x)))
      (scan_register_set name rs found).
Proof.
  induction rs as [|r rs IH]; cbn [specs_of_list map scan_register_set fst];
    [reflexivity|].
  destruct (String.eqb (fst r) name); [reflexivity | exact IH].
Qed.

Lemma block_get_specs (rt : rtype) (b : block) :
  block_get rt (specs_of_block b) = option_map specs_of_list (block_get rt b).
Proof.
  induction b as [|[k l] b IH]; cbn [specs_of_block map block_get fst snd];
    [reflexivity|].
  destruct (rtype_eqb k rt); [reflexivity | exact IH].
Qed.

Lemma block_keys_specs (b : block) : map fst (specs_of_block b) = map fst b.
Proof.
  unfold specs_of_block. rewrite map_map. apply map_ext. reflexivity.
Qed.

Lemma register_sets_specs (b : block) (ks : list rtype) :
  register_sets (specs_of_block b) ks = map specs_of_list (register_sets b ks).
Proof.
  unfold register_sets.
  induction ks as [|k ks IH]; cbn [flat_map]; [reflexivity|].
  rewrite map_app, IH, block_get_specs.
  destruct (block_get k b); reflexivity.
Qed.

Lemma scan_sets_specs (name : string) (sets : list (list register)) :
  forall found : option register,
    fold_left (fun f set => scan_register_set name set f)
      (map specs_of_list sets)
      (option_map (fun x => (fst x, spec_of (snd x))) found)
    = option_map (fun x => (fst x, spec_of (snd x)))
        (fold_left (fun f set => scan_register_set name set f) sets found).
Proof.
  induction sets as [|x sets IH]; intro found; cbn [map fold_left];
    [reflexivity|].
  rewrite scan_register_set_specs. apply IH.
Qed.

Lemma scan_block_specs (name : string) (block_type : option rtype) (b : block)
  (found : option register) :
  scan_block name block_type
    (option_map (fun x => (fst x, spec_of (snd x))) found) (specs_of_block b)
  = option_map (fun x => (fst x, spec_of (snd x)))
      (scan_block name block_type found b).
Proof.
  unfold scan_block. rewrite block_keys_specs.
  destruct block_type as [bt|].
  - destruct (existsb (rtype_eqb bt) (map fst b)); [|reflexivity].
    rewrite register_sets_specs. apply scan_sets_specs.
  - rewrite register_sets_specs. apply scan_sets_specs.
Qed.

Lemma find_blocks_specs (name : string) (block_type : option rtype)
  (bs : list block) :
  forall found : option register,
    fold_left (scan_block name block_type) (map specs_of_block bs)
      (option_map (fun x => (fst x, spec_of (snd x))) found)
    = option_map (fun x => (fst x, spec_of (snd x)))
        (fold_left (scan_block name block_type) bs found).
Proof.
  induction bs as [|b bs IH]; intro found; cbn [map fold_left]; [reflexivity|].
  rewrite scan_block_specs. apply IH.
Qed.

Lemma dict_get_specs (u : string) (R : registers) :
  dict_get u (specs_of R)
  = option_map (fun fam => {| ERRORS := ERRORS fam;
                              BLOCKS := option_map (map specs_of_block)
                                          (BLOCKS fam) |})
      (dict_get u R).
Proof.
  induction R as [|[k f] R IH]; cbn [specs_of map dict_get fst snd];
    [reflexivity|].
  destruct (String.eqb k u); [reflexivity | exact IH].
Qed.

Lemma find_register_specs (s : session) (R : registers) (name : string)
  (block_type : option rtype) :
  _find_register s (specs_of R) name block_type
  = spec_found (_find_register s R name block_type).
Proof.
  unfold _find_register, get_registers. rewrite dict_get_specs.
  destruct (dict_get (_unit s) R) as [fam|]; [|reflexivity].
  cbn [option_map BLOCKS].
  destruct (BLOCKS fam) as [bs|]; [|reflexivity].
  cbn [option_map bind ok spec_found].
  rewrite <- (find_blocks_specs name block_type bs None). reflexivity.
Qed.

(** X21: an [update] never changes what a lookup finds, only the values
    it carries: before and after any [update], with whatever outcome, a
    lookup by the same name and filter fails the same way, or finds
    nothing both times, or finds a register with the same name, address,
    data type, unit and code map. *)
Theorem lookup_stable_under_update :
  forall (c : client) (s : session) (R : registers) (w : io)
         (name : string) (block_type : option rtype),
    spec_found (_find_register s (snd (fst (update c s R w))) name block_type)
    = spec_found (_find_register s R name block_type).
Proof.
  intros c s R w name block_type.
  rewrite <- !find_register_specs, update_specs_kept. reflexivity.
Qed.

(** ** What [set_register] can raise *)

Lemma round_int_raises (x : float) (e : exn) :
  PyFloat.round_int x = raise e -> e = ValueError \/ e = OverflowError.
Proof.
  unfold PyFloat.round_int, raise, ok.
  destruct (Prim2SF x) as [sg|sg| |sg m k].
  - discriminate.
  - intro H. injection H as <-. right. reflexivity.
  - intro H. injection H as <-. left. reflexivity.
  - destruct (0 <=? k); discriminate.
Qed.

Lemma round_mul_raises (v : pyval) (k : Z) (e : exn) :
  k = 10 \/ k = 100 ->
  py_round_mul_int v k = raise e ->
  e = TypeError \/ e = ValueError \/ e = OverflowError.
Proof.
  unfold raise. intros K.
  destruct v as [z|f|s|l]; cbn [py_round_mul_int ok].
  - discriminate.
  - assert (O : exists g, PyFloat.of_int k = inl g)
      by (destruct K as [->| ->]; eexists; vm_compute; reflexivity).
    destruct O as [g ->]. cbn [bind].
    destruct (PyFloat.round_int (f * g)) as [n|e'] eqn:Rn; cbn [bind];
      [discriminate|].
    intro H. injection H as <-. right. apply (round_int_raises _ _ Rn).
  - intro H. injection H as <-. left. reflexivity.
  - intro H. injection H as <-. left. reflexivity.
Qed.

Lemma encode_raises (it : item) (v : pyval) (e : exn) :
  encode it v = raise e ->
  e = TypeError \/ e = ValueError \/ e = OverflowError.
Proof.
  unfold encode.
  destruct (type it =? 2).
  - destruct (py_round_mul_int v 10) as [v1|e1] eqn:E1; cbn [bind].
    + destruct (type it =? 7); [|discriminate].
      apply round_mul_raises. right. reflexivity.
    + intro H. injection H as <-.
      apply (round_mul_raises v 10 e1); [left; reflexivity | exact E1].
  - cbn [bind ok]. destruct (type it =? 7); [|discriminate].
    apply round_mul_raises. right. reflexivity.
Qed.

(** X22: the exceptions of [set_register] on a unit that has blocks. It
    raises "Register not found or not HOLDING register!" exactly when no
    HOLDING list declares the name; anything else it raises is "Value not
    supported!", or the [TypeError], [ValueError] or [OverflowError] of
    scaling and rounding a value that is no finite number. *)
Theorem set_register_raises_only :
  forall (c : client) (s : session) (R : registers) (bs : list block)
         (name : string) (value : pyval) (w : io),
    get_registers s R = ok bs ->
    (fst (set_register c s R name value w) = raise (Exception not_found_msg) <->
     ~ In name (map fst (registers_of_type HOLDING bs))) /\
    (forall e, fst (set_register c s R name value w) = raise e ->
               e = Exception not_found_msg \/ e = Exception not_supported_msg \/
               e = TypeError \/ e = ValueError \/ e = OverflowError).
Proof.
  intros c s R bs name value w G.
  pose proof (proj2 (find_register_filtered_facts s R bs name HOLDING G)) as N.
  unfold set_register.
  destruct (_find_register s R name (Some HOLDING)) as [[[n it]|]|e0] eqn:F.
  - assert (X : forall e,
               fst (match encode it value with
                    | inl raw =>
                        if match code it with
                           | Some cm => negb (value_in_code raw cm)
                           | None => false
                           end
                        then (raise (Exception not_supported_msg), w)
                        else
                          (ok tt,
                           add_stdout
                             (add_call w (WriteRegister (addr it - 1) raw))
                             (write_register c (length (calls w))
                                (addr it - 1) raw))
                    | inr e => (raise e, w)
                    end) = raise e ->
               e = Exception not_supported_msg \/
               e = TypeError \/ e = ValueError \/ e = OverflowError).
    { intro e. destruct (encode it value) as [raw|e1] eqn:En.
      - destruct (match code it with
                  | Some cm => negb (value_in_code raw cm)
                  | None => false
                  end); cbn [fst]; [|discriminate].
        intro H. injection H as <-. left. reflexivity.
      - cbn [fst]. intro H. injection H as <-. right.
        apply (encode_raises it value e1 En). }
    split.
    + split.
      * intro H. apply X in H.
        destruct H as [H|[H|[H|H]]]; discriminate H.
      * intro A. apply N in A. discriminate A.
    + intros e H. right. apply X. exact H.
  - split.
    + split; [intros _; apply N; reflexivity | reflexivity].
    + intros e H. cbn [fst] in H. injection H as <-. left. reflexivity.
  - unfold _find_register in F. rewrite G in F. discriminate F.
Qed.

Lemma set_register_raises_only_witness :
  fst (set_register (device_client (fun a => a)) LWZ_session REGISTERS
         "DHW_TEMP_SET_DAY" (VFloat nan) io0) = raise ValueError /\
  (ValueError = Exception not_found_msg \/
   ValueError = Exception not_supported_msg \/
   ValueError = TypeError \/ ValueError = ValueError \/
   ValueError = OverflowError).
Proof.
  assert (E : fst (set_register (device_client (fun a => a)) LWZ_session REGISTERS
                     "DHW_TEMP_SET_DAY" (VFloat nan) io0) = raise ValueError)
    by (vm_compute; reflexivity).
  split; [exact E|].
  exact (proj2 (set_register_raises_only (device_client (fun a => a)) LWZ_session
                  REGISTERS LWZ_BLOCKS "DHW_TEMP_SET_DAY" (VFloat nan) io0 eq_refl)
           ValueError E).
Defined.
